(** * BlogPage: the paginated blog listing and its error boundary

    A shallow embedding of [src/pages/BlogPage.tsx]: the five [useState]
    cells of the [BlogPage] component, the [fetchPosts] effect that runs on
    mount and whenever [currentPage] changes, the conditional render of the
    page body, and the [ErrorBoundary] class component that wraps the
    populated branch.

    React's hook state is modelled by explicit state passing: every setter
    call of the source is an [Action], a run of the source between two
    suspension points is a list of actions, and the component sits in a
    [World] together with its in-flight requests, the mounted boundary
    instance and the console. *)

From Stdlib Require Import ZArith List String Bool Lia Permutation.
Import ListNotations.
Local Open Scope Z_scope.

(** ** The data source, [@/lib/notion] *)

Module Notion.

(** Modelled from the spec: the [NotionPost] type declaration of
    [lib/notion] is not among the sources.  The page reads [post.id] (the
    list key) and hands the whole post to [BlogCard]; the display fields
    are opaque to it. *)
Record NotionPost : Type := mkPost {
  id : string;
  title : string;
  summary : string
}.

(** Modelled from the spec: what [getPosts] rejects with is decided in
    [lib/notion], which is not among the sources; the spec names network,
    parsing and server errors.  The [catch] clause binds the value to [err]
    and only logs it. *)
Inductive Fault : Type :=
| NetworkFault
| ParseFault
| ServerFault (code : Z)
| OtherFault (message : string).

(** How the promise returned by [getPosts(page, pageSize)] settles:
    [{ posts, totalPages }] or a rejection. *)
Inductive Outcome : Type :=
| Resolved (posts : list NotionPost) (totalPages : Z)
| Rejected (err : Fault).

(** The arguments of one [getPosts] call. *)
Record Request : Type := mkRequest {
  req_page : Z;
  req_pageSize : Z
}.

End Notion.

Import Notion.

(** ** The console *)

Inductive LogEntry : Type :=
| LogFetching                                  (* console.log('Fetching blog posts...') *)
| LogFetched (count : nat) (page : Z)          (* console.log(`Fetched ${n} posts for page ${p}`) *)
| LogFetchError (err : Fault)                  (* console.error('Error fetching posts:', err) *)
| LogRenderError (err : Fault).                (* console.error('Error in BlogPage:', error, errorInfo) *)

(** ** ErrorBoundary *)

Module ErrorBoundary.

(** [{ hasError: boolean }] *)
Record State : Type := mkState { hasError : bool }.

(** [state = { hasError: false }] *)
Definition initial : State := {| hasError := false |}.

(** [static getDerivedStateFromError(error) { return { hasError: true }; }] *)
Definition getDerivedStateFromError (error : Fault) : State :=
  {| hasError := true |}.

(** [componentDidCatch] only writes to the console. *)
Definition componentDidCatch (error : Fault) : list LogEntry :=
  [LogRenderError error].

(** The fallback markup: an icon, an [h3] heading and a paragraph. *)
Record Notice : Type := mkNotice { heading : string; text : string }.

Definition fallback : Notice :=
  {| heading := "Something went wrong"%string;
     text := "An error occurred while rendering the blog posts. Please try again later."%string |}.

(** What [render()] returns: the fallback, or [this.props.children]. *)
Inductive Output (C : Type) : Type :=
| Fallback (n : Notice)
| Children (children : C).
Arguments Fallback {C} n.
Arguments Children {C} children.

Definition render {C : Type} (st : State) (children : C) : Output C :=
  if hasError st then Fallback fallback else Children children.

(** The two things that happen to a mounted instance: React renders it
    again (new props or a parent render), or a descendant throws while
    rendering and React hands the error to the two lifecycle hooks.  The
    class calls [setState] nowhere, so nothing else touches its state. *)
Inductive Event : Type :=
| Rerender
| Caught (error : Fault).

Definition step (ev : Event) (st : State) : State :=
  match ev with
  | Rerender => st
  | Caught error => getDerivedStateFromError error
  end.

Definition steps (evs : list Event) (st : State) : State :=
  fold_left (fun acc ev => step ev acc) evs st.

End ErrorBoundary.

(** ** BlogPage *)

Module BlogPage.

Definition POSTS_PER_PAGE : Z := 9.

Definition FETCH_ERROR_MESSAGE : string :=
  "Failed to load blog posts. Please try again later."%string.

(** The five [useState] cells. *)
Record State : Type := mkState {
  posts : list NotionPost;
  currentPage : Z;
  totalPages : Z;
  isLoading : bool;
  error : option string          (* string | null *)
}.

(** [useState([])], [useState(1)], [useState(0)], [useState(true)],
    [useState(null)]. *)
Definition initial : State :=
  {| posts := []; currentPage := 1; totalPages := 0;
     isLoading := true; error := None |}.

(** One call of a state setter, or one console call. *)
Inductive Action : Type :=
| SetPosts (ps : list NotionPost)
| SetCurrentPage (p : Z)
| SetTotalPages (n : Z)
| SetIsLoading (b : bool)
| SetError (e : option string)
| Console (l : LogEntry).

Definition apply (a : Action) (s : State) : State :=
  match a with
  | SetPosts ps =>
      {| posts := ps; currentPage := currentPage s; totalPages := totalPages s;
         isLoading := isLoading s; error := error s |}
  | SetCurrentPage p =>
      {| posts := posts s; currentPage := p; totalPages := totalPages s;
         isLoading := isLoading s; error := error s |}
  | SetTotalPages n =>
      {| posts := posts s; currentPage := currentPage s; totalPages := n;
         isLoading := isLoading s; error := error s |}
  | SetIsLoading b =>
      {| posts := posts s; currentPage := currentPage s; totalPages := totalPages s;
         isLoading := b; error := error s |}
  | SetError e =>
      {| posts := posts s; currentPage := currentPage s; totalPages := totalPages s;
         isLoading := isLoading s; error := e |}
  | Console _ => s
  end.

Definition run (acts : list Action) (s : State) : State :=
  fold_left (fun acc a => apply a acc) acts s.


Definition logged (acts : list Action) : list LogEntry :=
  flat_map (fun a => match a with Console l => [l] | _ => [] end) acts.

(** *** [fetchPosts], cut at its [await] *)

(** Lines 48-53: the three setters, the log line, and the call
    [getPosts(currentPage, POSTS_PER_PAGE)]. *)
Definition fetchPosts_start (page : Z) : list Action * Request :=
  ([SetIsLoading true; SetPosts []; SetError None; Console LogFetching],
   {| req_page := page; req_pageSize := POSTS_PER_PAGE |}).

(** Lines 53-62: the continuation after the [await], by how the promise
    settled; [finally] runs on both paths.  [page] is the [currentPage]
    the closure captured. *)
Definition fetchPosts_settle (page : Z) (o : Outcome) : list Action :=
  match o with
  | Resolved newPosts total =>
      [Console (LogFetched (List.length newPosts) page);
       SetPosts newPosts;
       SetTotalPages total]
      ++ [SetIsLoading false]
  | Rejected err =>
      [Console (LogFetchError err);
       SetError (Some FETCH_ERROR_MESSAGE)]
      ++ [SetIsLoading false]
  end.

(** All the actions of one fetch cycle that nothing else interleaves
    with: the reset, then the settlement of that same request. *)
Definition cycle_actions (page : Z) (o : Outcome) : list Action :=
  fst (fetchPosts_start page) ++ fetchPosts_settle page o.

Definition fetch_cycle (o : Outcome) (s : State) : State :=
  run (cycle_actions (currentPage s) o) s.

(** *** The derived status *)

Inductive Status : Type := Loading | Error | Ready.

(** JavaScript truthiness of a [string | null]. *)
Definition truthy (e : option string) : bool :=
  match e with
  | None => false
  | Some EmptyString => false
  | Some (String _ _) => true
  end.

(** The order of the two conditionals of the render (lines 86 and 90). *)
Definition status (s : State) : Status :=
  if isLoading s then Loading
  else if truthy (error s) then Error
  else Ready.

(** *** The render, lines 86-137 *)

(** The props handed to [Pagination]; its [onPageChange] is always the
    setter [setCurrentPage]. *)
Record PagerProps : Type := mkPagerProps {
  pager_currentPage : Z;
  pager_totalPages : Z
}.

(** Lines 100-121: the grid of cards, one [BlogCard] per post, keyed by
    [post.id] and in the order of [posts], or the empty-state notice. *)
Inductive Listing : Type :=
| PostGrid (cards : list NotionPost)
| NoPostsFound.

(** The two children of [<ErrorBoundary>]: the listing (lines 100-121)
    and the optional pager (lines 123-135). *)
Record Wrapped : Type := mkWrapped {
  listing : Listing;
  pager : option PagerProps
}.

(** The element the function component returns for the page body. *)
Inductive Element : Type :=
| ELoader
| EErrorPanel (heading : string)
| EBoundary (children : Wrapped).

Definition boundary_children (s : State) : Wrapped :=
  {| listing := if (0 <? List.length (posts s))%nat
                then PostGrid (map (fun post => post) (posts s))
                else NoPostsFound;
     pager := if 1 <? totalPages s
              then Some {| pager_currentPage := currentPage s;
                           pager_totalPages := totalPages s |}
              else None |}.

Definition render (s : State) : Element :=
  if isLoading s then ELoader
  else match error s with
       | Some (String c m) => EErrorPanel (String c m)
       | _ => EBoundary (boundary_children s)
       end.

(** What ends up on the screen below the page header. *)
Inductive Body : Type :=
| Loader
| ErrorPanel (heading : string)
| Bounded (out : ErrorBoundary.Output Wrapped).

Definition shown_cards (b : Body) : list NotionPost :=
  match b with
  | Bounded (ErrorBoundary.Children c) =>
      match listing c with
      | PostGrid cards => cards
      | NoPostsFound => []
      end
  | _ => []
  end.

Definition shown_pager (b : Body) : option PagerProps :=
  match b with
  | Bounded (ErrorBoundary.Children c) => pager c
  | _ => None
  end.

(** *** The collaborators *)

(** [BlogCard] and [Pagination] are imported components; all the page can
    observe of them is whether rendering one with given props throws. *)
Record Collaborators : Type := mkCollaborators {
  BlogCard : NotionPost -> option Fault;
  Pagination : PagerProps -> option Fault
}.

(** The first fault in document order, if any child throws. *)
Fixpoint first_thrown {A : Type} (component : A -> option Fault) (l : list A)
  : option Fault :=
  match l with
  | [] => None
  | x :: rest =>
      match component x with
      | Some e => Some e
      | None => first_thrown component rest
      end
  end.

(** Every fault thrown while a list of siblings renders: React goes on to
    render the siblings of a child that has thrown. *)
Fixpoint all_thrown {A : Type} (component : A -> option Fault) (l : list A)
  : list Fault :=
  match l with
  | [] => []
  | x :: rest =>
      match component x with
      | Some e => e :: all_thrown component rest
      | None => all_thrown component rest
      end
  end.

(** Rendering the boundary's children in document order, the cards and
    then the pager: the faults thrown, one per throwing child. *)
Definition render_children (env : Collaborators) (c : Wrapped) : list Fault :=
  match listing c with
  | PostGrid cards => all_thrown (BlogCard env) cards
  | NoPostsFound => []
  end
  ++ match pager c with
     | Some props =>
         match Pagination env props with
         | Some e => [e]
         | None => []
         end
     | None => []
     end.

(** One render pass over a mounted boundary: [render()], then its
    children; if any of them throws, React hands each error to
    [getDerivedStateFromError], renders the boundary again with the new
    state, and calls [componentDidCatch] once for each error. *)
Definition render_boundary (env : Collaborators) (st : ErrorBoundary.State)
    (c : Wrapped)
  : ErrorBoundary.State * ErrorBoundary.Output Wrapped * list LogEntry :=
  match ErrorBoundary.render st c with
  | ErrorBoundary.Fallback n => (st, ErrorBoundary.Fallback n, [])
  | ErrorBoundary.Children c' =>
      match render_children env c' with
      | [] => (st, ErrorBoundary.Children c', [])
      | e :: es =>
          let st' := ErrorBoundary.steps
                       (map ErrorBoundary.Caught (e :: es)) st in
          (st', ErrorBoundary.render st' c,
           flat_map ErrorBoundary.componentDidCatch (e :: es))
      end
  end.

(** *** The mounted page *)

Record World : Type := mkWorld {
  page : State;
  (** the [currentPage] the effect last ran with; [None] before mount *)
  deps : option Z;
  (** [getPosts] promises not settled yet, oldest first *)
  inflight : list Request;
  (** the state of the mounted [ErrorBoundary], [None] while the loader
      or the error panel is shown instead *)
  boundary : option ErrorBoundary.State;
  screen : Body;
  console : list LogEntry
}.

(** React renders the component and commits the result.  A boundary that
    was not on screen is mounted with its initial state; leaving the
    third branch unmounts it. *)
Definition commit (env : Collaborators) (w : World) : World :=
  match render (page w) with
  | ELoader =>
      {| page := page w; deps := deps w; inflight := inflight w;
         boundary := None; screen := Loader; console := console w |}
  | EErrorPanel h =>
      {| page := page w; deps := deps w; inflight := inflight w;
         boundary := None; screen := ErrorPanel h; console := console w |}
  | EBoundary c =>
      let st := match boundary w with
                | Some st => st
                | None => ErrorBoundary.initial
                end in
      let '(st', out, logs) := render_boundary env st c in
      {| page := page w; deps := deps w; inflight := inflight w;
         boundary := Some st'; screen := Bounded out;
         console := console w ++ logs |}
  end.

Definition deps_changed (w : World) : bool :=
  match deps w with
  | None => true
  | Some d => negb (d =? currentPage (page w))
  end.

(** [useEffect(() => { ...; fetchPosts(); }, [currentPage])]: after a
    commit, the effect runs if this is the mount or [currentPage] is not
    the value it last ran with.  It runs [fetchPosts] up to the [await]. *)
Definition useEffect (w : World) : World :=
  if deps_changed w then
    let '(acts, req) := fetchPosts_start (currentPage (page w)) in
    {| page := run acts (page w);
       deps := Some (currentPage (page w));
       inflight := inflight w ++ [req];
       boundary := boundary w; screen := screen w;
       console := console w ++ logged acts |}
  else w.

(** After a handler has run: render, run the effect, render again. *)
Definition flush (env : Collaborators) (w : World) : World :=
  commit env (useEffect (commit env w)).

Definition unmounted : World :=
  {| page := initial; deps := None; inflight := [];
     boundary := None; screen := Loader; console := [] |}.

Definition mount (env : Collaborators) : World := flush env unmounted.

(** What can happen to the mounted page: the pager calls [onPageChange],
    one of the pending promises settles, or React renders the page again
    with its state as it is (a parent has rendered). *)
Inductive Event : Type :=
| PageChange (p : Z)
| Settled (k : nat) (o : Outcome)
| Rerender.

Fixpoint remove_nth {A : Type} (k : nat) (l : list A) : list A :=
  match l, k with
  | [], _ => []
  | _ :: rest, O => rest
  | x :: rest, S k' => x :: remove_nth k' rest
  end.

(** [setCurrentPage(p)] can be called whenever the pager, or whoever
    still holds the callback, calls it: nothing in the page guards it, and
    requests already pending are not cancelled.  With the value already
    held the call is dropped by React: no render, no effect.  A handler,
    the render that follows it and the effect run as one step. *)
Definition step (env : Collaborators) (ev : Event) (w : World) : World :=
  match ev with
  | PageChange p =>
      if p =? currentPage (page w) then w
      else
        flush env
          {| page := apply (SetCurrentPage p) (page w);
             deps := deps w; inflight := inflight w;
             boundary := boundary w; screen := screen w;
             console := console w |}
  | Settled k o =>
      match nth_error (inflight w) k with
      | None => w
      | Some req =>
          let acts := fetchPosts_settle (req_page req) o in
          flush env
            {| page := run acts (page w);
               deps := deps w; inflight := remove_nth k (inflight w);
               boundary := boundary w; screen := screen w;
               console := console w ++ logged acts |}
      end
  | Rerender => flush env w
  end.

Definition steps (env : Collaborators) (evs : list Event) (w : World) : World :=
  fold_left (fun acc ev => step env ev acc) evs w.

End BlogPage.

Import BlogPage.

(** ** Observers used in the statements *)


Definition writes_totalPages (acts : list Action) : bool :=
  existsb (fun a => match a with SetTotalPages _ => true | _ => false end) acts.

(** The actions the error path is allowed: clearing the posts, the error
    message, the loading flag (and console output, which is not state). *)
Definition error_path_action (a : Action) : bool :=
  match a with
  | SetPosts [] => true
  | SetError _ => true
  | SetIsLoading _ => true
  | Console _ => true
  | _ => false
  end.

(** The total carried by an event that resolves a request, if it is one. *)
Definition resolved_total (ev : Event) : option Z :=
  match ev with
  | Settled _ (Resolved _ total) => Some total
  | _ => None
  end.

(** Whether the mounted boundary is in its fallback mode. *)
Definition tripped (w : World) : bool :=
  match boundary w with
  | Some st => ErrorBoundary.hasError st
  | None => false
  end.

(** The effect has run for the [currentPage] the state holds. *)
Definition in_step (w : World) : Prop :=
  deps w = Some (currentPage (page w)).

(** While the loading flag is up, the request issued last is the one for
    [currentPage], and it is still pending. *)
Definition loader_backed (w : World) : Prop :=
  isLoading (page w) = true ->
  exists earlier,
    inflight w = earlier ++ [{| req_page := currentPage (page w);
                                req_pageSize := POSTS_PER_PAGE |}].

(** Sample data for the concrete scenarios below. *)
Definition post_a : NotionPost := mkPost "a" "First post" "alpha".
Definition post_b : NotionPost := mkPost "b" "Second post" "beta".
Definition post_c : NotionPost := mkPost "c" "Third post" "gamma".
Definition post_d : NotionPost := mkPost "d" "Fourth post" "delta".
Definition post_e : NotionPost := mkPost "e" "Fifth post" "epsilon".

(** Collaborators that never throw. *)
Definition sound_cards : Collaborators :=
  {| BlogCard := fun _ => None; Pagination := fun _ => None |}.

(** A [BlogCard] that throws on the post whose id is ["b"], and on no
    other. *)
Definition card_b_throws : Collaborators :=
  {| BlogCard := fun post =>
       if String.eqb (id post) "b" then Some (OtherFault "cannot read title")
       else None;
     Pagination := fun _ => None |}.

(** Counting console entries of one kind. *)
Definition count_log (kind : LogEntry -> bool) (l : list LogEntry) : nat :=
  List.length (filter kind l).

Definition is_fetching (l : LogEntry) : bool :=
  match l with LogFetching => true | _ => false end.

Definition is_fetched (l : LogEntry) : bool :=
  match l with LogFetched _ _ => true | _ => false end.

Definition is_fetch_error (l : LogEntry) : bool :=
  match l with LogFetchError _ => true | _ => false end.

Definition is_caught (ev : ErrorBoundary.Event) : bool :=
  match ev with ErrorBoundary.Caught _ => true | ErrorBoundary.Rerender => false end.

(** What holds of the state however requests overlap: behind the loader
    it holds no posts and no error, and an error is always the fixed
    message. *)
Definition well_shaped (s : BlogPage.State) : Prop :=
  (isLoading s = true -> posts s = [] /\ error s = None) /\
  (error s = None \/ error s = Some FETCH_ERROR_MESSAGE).

Definition is_render_error (l : LogEntry) : bool :=
  match l with LogRenderError _ => true | _ => false end.

(** The requests started, as the console counts them, are those logged as
    fetched, those logged as failed, and those still pending. *)
Definition accounted (w : World) : Prop :=
  count_log is_fetching (console w) =
  (count_log is_fetched (console w) + count_log is_fetch_error (console w)
   + List.length (inflight w))%nat.

(** ** The dev-server configuration, [vite.config.ts] *)

Module ViteConfig.

(** A path, as the list of its segments below the file-system root. *)
Definition Path : Type := list string.

Inductive Node : Type :=
| File (data : string)
| Directory.

(** The file system as the three calls of Node's [fs] module used by
    [setupMiddleware] see it: the entries, latest first, with the root
    (the empty path) a directory; and the paths at which the operating
    system refuses to create or write whatever the entries are (no
    permission, a read-only volume, a full disk). *)
Record FileSystem : Type := mkFileSystem {
  entries : list (Path * Node);
  denied : Path -> bool
}.

Fixpoint lookup_in (l : list (Path * Node)) (p : Path) : option Node :=
  match l with
  | [] => None
  | (q, n) :: rest =>
      if list_eq_dec string_dec q p then Some n else lookup_in rest p
  end.

Definition lookup (fs : FileSystem) (p : Path) : option Node :=
  lookup_in (entries fs) p.

Definition add (p : Path) (n : Node) (fs : FileSystem) : FileSystem :=
  {| entries := (p, n) :: entries fs; denied := denied fs |}.

Definition is_directory (fs : FileSystem) (p : Path) : bool :=
  match p with
  | [] => true
  | _ :: _ =>
      match lookup fs p with
      | Some Directory => true
      | _ => false
      end
  end.

(** [fs.existsSync(p)] *)
Definition existsSync (fs : FileSystem) (p : Path) : bool :=
  match p with
  | [] => true
  | _ :: _ =>
      match lookup fs p with
      | Some _ => true
      | None => false
      end
  end.

(** [fs.mkdirSync(p, { recursive: true })]: every missing directory on the
    way down to [p] is created; the call throws ([None]) when a regular
    file is on the way or the system refuses to create a directory. *)
Fixpoint mkdir_below (done : Path) (todo : list string) (fs : FileSystem)
  : option FileSystem :=
  match todo with
  | [] => Some fs
  | segment :: rest =>
      let d := done ++ [segment] in
      match lookup fs d with
      | Some Directory => mkdir_below d rest fs
      | Some (File _) => None
      | None =>
          if denied fs d then None
          else mkdir_below d rest (add d Directory fs)
      end
  end.

Definition mkdirSync_recursive (p : Path) (fs : FileSystem) : option FileSystem :=
  mkdir_below [] p fs.

(** [fs.writeFileSync(p, data)]: throws ([None]) when [p] is a directory,
    when the parent of [p] is not an existing directory, or when the
    system refuses the write; otherwise the file is created or replaced. *)
Definition writeFileSync (p : Path) (data : string) (fs : FileSystem)
  : option FileSystem :=
  match p with
  | [] => None
  | _ :: _ =>
      match lookup fs p with
      | Some Directory => None
      | _ =>
          if is_directory fs (removelast p)
          then if denied fs p then None else Some (add p (File data) fs)
          else None
      end
  end.

(** [JSON.stringify({ posts: [] }, null, 2)]: an opening brace, the line
    with the key [posts] and an empty array, indented by two spaces, and
    the closing brace. *)
Definition EMPTY_POSTS_JSON : string :=
  let quote := String (Ascii.ascii_of_nat 34) EmptyString in
  let newline := String (Ascii.ascii_of_nat 10) EmptyString in
  ("{" ++ newline ++ "  " ++ quote ++ "posts" ++ quote ++ ": []"
   ++ newline ++ "}")%string.

(** [path.resolve(__dirname, 'public')] *)
Definition publicDir (dirname : Path) : Path := dirname ++ ["public"%string].

(** [path.join(publicDir, 'blog-posts.json')] *)
Definition blogPostsPath (dirname : Path) : Path :=
  publicDir dirname ++ ["blog-posts.json"%string].

(** Lines 28-39, the function under [server.setupMiddleware]; its two
    arguments are not used.  [None] when one of the [fs] calls throws. *)
Definition setupMiddleware (dirname : Path) (fs : FileSystem)
  : option FileSystem :=
  if negb (existsSync fs (blogPostsPath dirname)) then
    match (if negb (existsSync fs (publicDir dirname))
           then mkdirSync_recursive (publicDir dirname) fs
           else Some fs) with
    | None => None
    | Some fs1 => writeFileSync (blogPostsPath dirname) EMPTY_POSTS_JSON fs1
    end
  else Some fs.

End ViteConfig.

(** A [Pagination] that throws on whatever props it gets, next to cards
    that all render. *)
Definition pager_throws : Collaborators :=
  {| BlogCard := fun _ => None;
     Pagination := fun _ => Some (OtherFault "page out of range") |}.

(** Sample project directories for the scenarios of [setupMiddleware]:
    one without [public], one whose [public/blog-posts.json] already
    holds posts, and one where [public] is a regular file. *)
Definition project_root : ViteConfig.Path := ["srv"%string; "app"%string].

Definition fresh_project : ViteConfig.FileSystem :=
  {| ViteConfig.entries :=
       [(["srv"%string; "app"%string], ViteConfig.Directory);
        (["srv"%string], ViteConfig.Directory)];
     ViteConfig.denied := fun _ => false |}.

Definition seeded_project : ViteConfig.FileSystem :=
  {| ViteConfig.entries :=
       [(["srv"%string; "app"%string; "public"%string;
          "blog-posts.json"%string],
         ViteConfig.File "{ posts: [1, 2] }");
        (["srv"%string; "app"%string; "public"%string], ViteConfig.Directory);
        (["srv"%string; "app"%string], ViteConfig.Directory);
        (["srv"%string], ViteConfig.Directory)];
     ViteConfig.denied := fun _ => false |}.

Definition blocked_project : ViteConfig.FileSystem :=
  {| ViteConfig.entries :=
       [(["srv"%string; "app"%string; "public"%string],
         ViteConfig.File "not a directory");
        (["srv"%string; "app"%string], ViteConfig.Directory);
        (["srv"%string], ViteConfig.Directory)];
     ViteConfig.denied := fun _ => false |}.


(** ** One fetch cycle *)

Section FetchCycle.

Variable s : BlogPage.State.

Lemma fetch_cycle_resolved (newPosts : list NotionPost) (total : Z) :
  fetch_cycle (Resolved newPosts total) s =
  {| posts := newPosts; currentPage := currentPage s; totalPages := total;
     isLoading := false; error := None |}.
Proof. reflexivity. Qed.

Lemma fetch_cycle_rejected (err : Fault) :
  fetch_cycle (Rejected err) s =
  {| posts := []; currentPage := currentPage s; totalPages := totalPages s;
     isLoading := false; error := Some FETCH_ERROR_MESSAGE |}.
Proof. reflexivity. Qed.

Lemma fetch_cycle_currentPage (o : Outcome) :
  currentPage (fetch_cycle o s) = currentPage s.
Proof. destruct o; reflexivity. Qed.

End FetchCycle.

(** C9.  Running the fetch cycle for the same page a second time, after
    the first has completed and with the same outcome from the data
    source, ends in the same state as the first run: same posts, same
    totalPages, same status, same error message.  (The first run leaves
    [currentPage] alone, so the second is a request for the same page.) *)
Theorem fetch_cycle_idempotent :
  forall (s : BlogPage.State) (o : Outcome),
    let once := fetch_cycle o s in
    let twice := fetch_cycle o once in
    currentPage once = currentPage s /\
    twice = once /\
    posts twice = posts once /\
    totalPages twice = totalPages once /\
    status twice = status once /\
    error twice = error once.
Proof.
  intros s o once twice.
  assert (E : twice = once).
  { subst once twice. destruct o as [newPosts total | err].
    - rewrite !fetch_cycle_resolved. reflexivity.
    - rewrite !fetch_cycle_rejected. reflexivity. }
  rewrite E. split; [apply fetch_cycle_currentPage | repeat split].
Qed.

(** C10.  A fetch cycle that settles in failure leaves [totalPages] and
    [currentPage] as they were before the cycle: every action of the cycle
    clears the posts, sets the error message, sets the loading flag or
    writes to the console, and the continuation after the rejection leaves
    the posts, [totalPages] and [currentPage] of whatever state it finds. *)
Theorem fetch_failure_frame :
  forall (s : BlogPage.State) (err : Fault),
    totalPages (fetch_cycle (Rejected err) s) = totalPages s /\
    currentPage (fetch_cycle (Rejected err) s) = currentPage s /\
    forallb error_path_action (cycle_actions (currentPage s) (Rejected err)) = true /\
    writes_totalPages (cycle_actions (currentPage s) (Rejected err)) = false /\
    (forall (page : Z) (m : BlogPage.State),
        let m' := run (fetchPosts_settle page (Rejected err)) m in
        posts m' = posts m /\ totalPages m' = totalPages m /\
        currentPage m' = currentPage m).
Proof.
  intros s err. rewrite fetch_cycle_rejected. cbn.
  repeat split.
Qed.

(** ** The pair [(posts, totalPages)] across a cycle *)


(** ** The boundary on its own *)

Lemma boundary_step_keeps_tripped (ev : ErrorBoundary.Event)
    (st : ErrorBoundary.State) :
  ErrorBoundary.hasError st = true ->
  ErrorBoundary.hasError (ErrorBoundary.step ev st) = true.
Proof. destruct ev; cbn; auto. Qed.

Lemma boundary_steps_keep_tripped (evs : list ErrorBoundary.Event)
    (st : ErrorBoundary.State) :
  ErrorBoundary.hasError st = true ->
  ErrorBoundary.hasError (ErrorBoundary.steps evs st) = true.
Proof.
  revert st. induction evs as [| ev evs IH]; intros st H; cbn.
  - exact H.
  - apply IH. now apply boundary_step_keeps_tripped.
Qed.

(** ** The mounted page *)

Section Mounted.

Variable env : Collaborators.

(** *** What a commit and the effect leave alone *)

Lemma commit_page (w : World) : page (commit env w) = page w.
Proof.
  unfold commit. destruct (render (page w)); try reflexivity.
  destruct (render_boundary _ _ _) as [[st' out] logs]. reflexivity.
Qed.

Lemma commit_deps (w : World) : deps (commit env w) = deps w.
Proof.
  unfold commit. destruct (render (page w)); try reflexivity.
  destruct (render_boundary _ _ _) as [[st' out] logs]. reflexivity.
Qed.

Lemma commit_inflight (w : World) : inflight (commit env w) = inflight w.
Proof.
  unfold commit. destruct (render (page w)); try reflexivity.
  destruct (render_boundary _ _ _) as [[st' out] logs]. reflexivity.
Qed.

Lemma commit_deps_changed (w : World) :
  deps_changed (commit env w) = deps_changed w.
Proof. unfold deps_changed. now rewrite commit_deps, commit_page. Qed.

Lemma useEffect_page (w : World) :
  page (useEffect w) =
  if deps_changed w
  then run (fst (fetchPosts_start (currentPage (page w)))) (page w)
  else page w.
Proof. unfold useEffect. destruct (deps_changed w); reflexivity. Qed.

Lemma useEffect_inflight (w : World) :
  inflight (useEffect w) =
  if deps_changed w
  then inflight w ++ [snd (fetchPosts_start (currentPage (page w)))]
  else inflight w.
Proof. unfold useEffect. destruct (deps_changed w); reflexivity. Qed.

Lemma useEffect_deps (w : World) :
  deps (useEffect w) = Some (currentPage (page (useEffect w))).
Proof.
  unfold useEffect, deps_changed.
  destruct (deps w) as [d |] eqn:Hd; cbn.
  - destruct (Z.eqb_spec d (currentPage (page w))) as [-> | Hne]; cbn.
    + exact Hd.
    + reflexivity.
  - reflexivity.
Qed.

Lemma flush_page (w : World) :
  page (flush env w) =
  if deps_changed w
  then run (fst (fetchPosts_start (currentPage (page w)))) (page w)
  else page w.
Proof.
  unfold flush.
  now rewrite commit_page, useEffect_page, commit_deps_changed, commit_page.
Qed.

Lemma flush_inflight (w : World) :
  inflight (flush env w) =
  if deps_changed w
  then inflight w ++ [snd (fetchPosts_start (currentPage (page w)))]
  else inflight w.
Proof.
  unfold flush.
  now rewrite commit_inflight, useEffect_inflight, commit_deps_changed,
    commit_inflight, commit_page.
Qed.

Lemma flush_deps (w : World) :
  deps (flush env w) = Some (currentPage (page (flush env w))).
Proof.
  unfold flush. rewrite commit_deps, commit_page. apply useEffect_deps.
Qed.

Lemma flush_totalPages (w : World) :
  totalPages (page (flush env w)) = totalPages (page w).
Proof. rewrite flush_page. destruct (deps_changed w); reflexivity. Qed.

(** *** The screen after a commit *)

Lemma render_ready (s : BlogPage.State) :
  status s = Ready <-> render s = EBoundary (boundary_children s).
Proof.
  unfold status, render, truthy.
  destruct (isLoading s); [split; discriminate |].
  destruct (error s) as [[| c m] |]; split; (reflexivity || discriminate).
Qed.

Lemma render_boundary_only_ready (s : BlogPage.State) (c : Wrapped) :
  render s = EBoundary c -> status s = Ready.
Proof.
  unfold status, render, truthy.
  destruct (isLoading s); [discriminate |].
  destruct (error s) as [[| ch m] |]; (reflexivity || discriminate).
Qed.

Lemma commit_not_ready (w : World) :
  status (page w) <> Ready ->
  boundary (commit env w) = None /\
  shown_cards (screen (commit env w)) = [] /\
  shown_pager (screen (commit env w)) = None.
Proof.
  intros H. unfold commit.
  destruct (render (page w)) as [| h | c] eqn:Hr; cbn; auto.
  exfalso. apply H. eapply render_boundary_only_ready; eauto.
Qed.

Lemma all_thrown_in {A : Type} (component : A -> option Fault)
    (l : list A) (x : A) :
  In x l -> component x <> None -> all_thrown component l <> [].
Proof.
  induction l as [| y l IH]; cbn; [contradiction |].
  intros [-> | Hin] Hx.
  - destruct (component x); [discriminate | contradiction].
  - destruct (component y); [discriminate | auto].
Qed.

Lemma first_thrown_none {A : Type} (component : A -> option Fault)
    (l : list A) :
  first_thrown component l = None <-> all_thrown component l = [].
Proof.
  induction l as [| y l IH]; cbn; [tauto |].
  destruct (component y); [split; discriminate | exact IH].
Qed.

(** However many errors reach it in one pass, the boundary ends tripped. *)
Lemma caught_all (e : Fault) (es : list Fault) (st : ErrorBoundary.State) :
  ErrorBoundary.steps (map ErrorBoundary.Caught (e :: es)) st =
  {| ErrorBoundary.hasError := true |}.
Proof.
  unfold ErrorBoundary.steps. cbn [map fold_left ErrorBoundary.step].
  unfold ErrorBoundary.getDerivedStateFromError. clear e st.
  induction es as [| e' es IH]; cbn [map fold_left]; [reflexivity |].
  exact IH.
Qed.

(** A boundary whose children throw commits the fallback, whatever its
    state was before. *)
Lemma render_boundary_throw (st : ErrorBoundary.State) (c : Wrapped) :
  render_children env c <> [] ->
  exists logs,
    render_boundary env st c =
    ({| ErrorBoundary.hasError := true |},
     ErrorBoundary.Fallback ErrorBoundary.fallback, logs).
Proof.
  intros H. unfold render_boundary, ErrorBoundary.render.
  destruct st as [[|]]; cbn [ErrorBoundary.hasError].
  - eexists; reflexivity.
  - destruct (render_children env c) as [| e es]; [contradiction |].
    rewrite caught_all. eexists; reflexivity.
Qed.

(** The three ways a render pass over the boundary can end. *)
Lemma render_boundary_cases (st : ErrorBoundary.State) (c : Wrapped) :
  let '(st', out, _) := render_boundary env st c in
  (ErrorBoundary.hasError st' = true /\
   out = ErrorBoundary.Fallback ErrorBoundary.fallback /\
   (ErrorBoundary.hasError st = true \/ render_children env c <> [])) \/
  (ErrorBoundary.hasError st' = false /\
   out = ErrorBoundary.Children c /\
   ErrorBoundary.hasError st = false /\ render_children env c = []).
Proof.
  unfold render_boundary, ErrorBoundary.render.
  destruct st as [[|]]; cbn [ErrorBoundary.hasError].
  - left. auto.
  - destruct (render_children env c) as [| e es].
    + right. auto.
    + rewrite caught_all. left. repeat split. right. discriminate.
Qed.

End Mounted.

(** ** Render faults *)

Lemma boundary_children_throw (env : Collaborators) (s : BlogPage.State)
    (post : NotionPost) :
  In post (posts s) -> BlogCard env post <> None ->
  render_children env (boundary_children s) <> [].
Proof.
  intros Hin Hthrow. unfold render_children, boundary_children.
  cbn [listing pager]. rewrite map_id.
  destruct (posts s) as [| p ps] eqn:Hp; [contradiction |].
  cbn [List.length Nat.ltb Nat.leb].
  pose proof (all_thrown_in (BlogCard env) (p :: ps) post Hin Hthrow) as H.
  destruct (all_thrown (BlogCard env) (p :: ps)); [contradiction | discriminate].
Qed.

(** C1 (amended).  In every Ready state with a non-empty list of posts, if
    the renderer of any one displayed post throws, the commit replaces the
    whole subtree under the boundary by the fallback view: the boundary is
    tripped, no card is on screen (the other posts' cards included) and the
    pager is not on screen; the state of the page itself is untouched. *)
Theorem card_fault_blanks_boundary :
  forall (env : Collaborators) (w : World) (post : NotionPost),
    status (page w) = Ready ->
    posts (page w) <> [] ->
    In post (posts (page w)) ->
    BlogCard env post <> None ->
    let w' := commit env w in
    screen w' = Bounded (ErrorBoundary.Fallback ErrorBoundary.fallback) /\
    tripped w' = true /\
    shown_cards (screen w') = [] /\
    shown_pager (screen w') = None /\
    page w' = page w.
Proof.
  intros env w post Hready _ Hin Hthrow w'. subst w'.
  assert (Hpage := commit_page env w).
  apply render_ready in Hready.
  pose proof (boundary_children_throw env _ post Hin Hthrow) as Hc.
  unfold commit in *. rewrite Hready in *.
  destruct (render_boundary_throw env
              match boundary w with
              | Some st => st
              | None => ErrorBoundary.initial
              end _ Hc) as [logs ->].
  unfold tripped. cbn. repeat split.
Qed.

(** ** The pager *)

Lemma commit_pager (env : Collaborators) (w : World) :
  let w' := commit env w in
  shown_pager (screen w') =
  match status (page w'), tripped w' with
  | Ready, false =>
      if 1 <? totalPages (page w')
      then Some {| pager_currentPage := currentPage (page w');
                   pager_totalPages := totalPages (page w') |}
      else None
  | _, _ => None
  end.
Proof.
  cbn zeta. rewrite commit_page.
  destruct (status (page w)) eqn:Hst.
  1,2: apply commit_not_ready; rewrite Hst; discriminate.
  apply render_ready in Hst. unfold commit, tripped. rewrite Hst.
  pose proof (render_boundary_cases env
                match boundary w with
                | Some st => st
                | None => ErrorBoundary.initial
                end (boundary_children (page w))) as H.
  destruct (render_boundary _ _ _) as [[st' out] logs]. cbn.
  destruct H as [(-> & -> & _) | (-> & -> & _)]; reflexivity.
Qed.

(** Every world the page can be in is the result of a commit. *)
Lemma steps_committed (env : Collaborators) (evs : list Event) :
  exists w0, steps env evs (mount env) = commit env w0.
Proof.
  unfold steps.
  assert (H0 : exists w0, mount env = commit env w0) by (eexists; reflexivity).
  revert H0. generalize (mount env).
  induction evs as [| ev evs IH]; intros w Hw; cbn [fold_left].
  - exact Hw.
  - apply IH. destruct ev as [p | k o |]; cbn [step].
    + destruct (p =? currentPage (page w)); [exact Hw |].
      eexists; reflexivity.
    + destruct (nth_error (inflight w) k); [| exact Hw].
      eexists; reflexivity.
    + eexists; reflexivity.
Qed.

(** C3 (amended).  In every state the mounted page can reach, the pager is
    on screen if and only if the status is Ready, [totalPages > 1] and the
    boundary has not tripped; when it is on screen its props are the
    current page and the page count held by the state. *)
Theorem pager_shown_iff :
  forall (env : Collaborators) (evs : list Event),
    let w := steps env evs (mount env) in
    (shown_pager (screen w) <> None <->
     (status (page w) = Ready /\ 1 < totalPages (page w) /\ tripped w = false)) /\
    (forall props : PagerProps,
        shown_pager (screen w) = Some props ->
        props = {| pager_currentPage := currentPage (page w);
                   pager_totalPages := totalPages (page w) |}).
Proof.
  intros env evs w. subst w.
  destruct (steps_committed env evs) as [w0 ->].
  pose proof (commit_pager env w0) as H. cbn zeta in H. rewrite H. clear H.
  destruct (status (page (commit env w0))), (tripped (commit env w0));
    try (split; [split; [intros C; now contradiction C
                        | intros (? & ? & ?); discriminate]
                | discriminate]).
  destruct (Z.ltb_spec 1 (totalPages (page (commit env w0)))) as [Hlt | Hge].
  - split; [split; [auto | discriminate] |].
    intros props [= <-]. reflexivity.
  - split; [split; [intros C; now contradiction C | lia] | discriminate].
Qed.

(** ** Requests and the effect *)

Lemma flush_currentPage (env : Collaborators) (w : World) :
  currentPage (page (flush env w)) = currentPage (page w).
Proof. rewrite flush_page. destruct (deps_changed w); reflexivity. Qed.

Lemma commit_screen (env : Collaborators) (w : World) :
  match render (page w) with
  | ELoader => screen (commit env w) = Loader
  | EErrorPanel h => screen (commit env w) = ErrorPanel h
  | EBoundary _ => exists out, screen (commit env w) = Bounded out
  end.
Proof.
  unfold commit. destruct (render (page w)); try reflexivity.
  destruct (render_boundary _ _ _) as [[st' out] logs]. now exists out.
Qed.

(** When the dependency has not changed the effect is skipped and the two
    renders of [flush] see the same state. *)
Lemma flush_effect_skipped (env : Collaborators) (w : World) :
  deps_changed w = false ->
  page (flush env w) = page w /\
  inflight (flush env w) = inflight w /\
  match render (page w) with
  | ELoader => screen (flush env w) = Loader
  | EErrorPanel h => screen (flush env w) = ErrorPanel h
  | EBoundary _ => exists out, screen (flush env w) = Bounded out
  end.
Proof.
  intros Hd. rewrite flush_page, flush_inflight, Hd.
  split; [reflexivity |]. split; [reflexivity |].
  unfold flush.
  assert (E : page (useEffect (commit env w)) = page w)
    by (rewrite useEffect_page, commit_deps_changed, Hd; apply commit_page).
  rewrite <- E. apply commit_screen.
Qed.

Lemma flush_effect_due (env : Collaborators) (w : World) :
  deps_changed w = true ->
  let w' := flush env w in
  page w' =
    {| posts := []; currentPage := currentPage (page w);
       totalPages := totalPages (page w); isLoading := true; error := None |} /\
  screen w' = Loader /\
  inflight w' =
    inflight w ++ [{| req_page := currentPage (page w); req_pageSize := 9 |}].
Proof.
  intros Hd w'. subst w'.
  assert (Hp : page (flush env w) =
    {| posts := []; currentPage := currentPage (page w);
       totalPages := totalPages (page w); isLoading := true; error := None |})
    by (rewrite flush_page, Hd; reflexivity).
  split; [exact Hp |]. split.
  - unfold flush in *. rewrite commit_page in Hp.
    unfold commit at 1, render. now rewrite Hp.
  - rewrite flush_inflight, Hd. reflexivity.
Qed.

Lemma in_step_deps_unchanged (w : World) : in_step w -> deps_changed w = false.
Proof.
  unfold in_step, deps_changed. intros ->. now rewrite Z.eqb_refl.
Qed.

Lemma step_in_step (env : Collaborators) (ev : Event) (w : World) :
  in_step w -> in_step (step env ev w).
Proof.
  intros Hw. destruct ev as [p | k o |]; cbn [step].
  - destruct (p =? currentPage (page w)); [exact Hw | apply flush_deps].
  - destruct (nth_error (inflight w) k); [apply flush_deps | exact Hw].
  - apply flush_deps.
Qed.

(** After every step the effect has run for the page the state holds. *)
Lemma steps_in_step (env : Collaborators) (evs : list Event) :
  in_step (steps env evs (mount env)).
Proof.
  unfold steps.
  assert (H0 : in_step (mount env)) by apply flush_deps.
  revert H0. generalize (mount env).
  induction evs as [| ev evs IH]; intros w Hw; cbn [fold_left].
  - exact Hw.
  - apply IH. now apply step_in_step.
Qed.

Lemma mount_loading (env : Collaborators) :
  let w := mount env in
  page w = {| posts := []; currentPage := 1; totalPages := 0;
              isLoading := true; error := None |} /\
  screen w = Loader /\
  inflight w = [{| req_page := 1; req_pageSize := 9 |}].
Proof. exact (flush_effect_due env unmounted eq_refl). Qed.

(** A page change resets the state and issues the request for the new
    page, whatever the state was and whatever is still pending. *)
Lemma page_change_loading (env : Collaborators) (w : World) (p : Z) :
  in_step w ->
  p <> currentPage (page w) ->
  let w' := step env (PageChange p) w in
  page w' =
    {| posts := []; currentPage := p; totalPages := totalPages (page w);
       isLoading := true; error := None |} /\
  screen w' = Loader /\
  inflight w' = inflight w ++ [{| req_page := p; req_pageSize := 9 |}].
Proof.
  intros Hdeps Hne w'. subst w'. cbn [step].
  destruct (Z.eqb_spec p (currentPage (page w))) as [E | _]; [contradiction |].
  match goal with |- context [flush env ?x] => set (w1 := x) end.
  assert (Hd : deps_changed w1 = true).
  { unfold deps_changed, w1. cbn. rewrite Hdeps. cbn.
    apply negb_true_iff, Z.eqb_neq. congruence. }
  exact (flush_effect_due env w1 Hd).
Qed.

Lemma render_boundary_again (env : Collaborators) (st : ErrorBoundary.State)
    (c : Wrapped) :
  let '(st', out, _) := render_boundary env st c in
  render_boundary env st' c = (st', out, []).
Proof.
  unfold render_boundary, ErrorBoundary.render.
  destruct st as [[|]]; cbn [ErrorBoundary.hasError]; [reflexivity |].
  destruct (render_children env c) as [| e es] eqn:Hc.
  - cbn [ErrorBoundary.hasError]. now rewrite Hc.
  - rewrite caught_all. reflexivity.
Qed.

Lemma commit_idempotent (env : Collaborators) (w : World) :
  commit env (commit env w) = commit env w.
Proof.
  unfold commit at 2 3. destruct (render (page w)) as [| h | c] eqn:Hr.
  - unfold commit. cbn [page]. rewrite Hr. reflexivity.
  - unfold commit. cbn [page]. rewrite Hr. reflexivity.
  - pose proof (render_boundary_again env
                  match boundary w with
                  | Some st => st
                  | None => ErrorBoundary.initial
                  end c) as H.
    destruct (render_boundary env _ c) as [[st' out] logs].
    unfold commit. cbn [page boundary]. rewrite Hr, H. cbn.
    now rewrite app_nil_r.
Qed.

Lemma useEffect_skipped (w : World) : deps_changed w = false -> useEffect w = w.
Proof. intros H. unfold useEffect. now rewrite H. Qed.

Lemma flush_skipped_commit (env : Collaborators) (w : World) :
  deps_changed w = false -> flush env w = commit env w.
Proof.
  intros H. unfold flush.
  rewrite useEffect_skipped by now rewrite commit_deps_changed.
  apply commit_idempotent.
Qed.

(** The settlement of a pending request: its continuation runs on the
    state as it is by then, and one render follows. *)
Lemma settle_step (env : Collaborators) (w : World) (k : nat) (req : Request)
    (o : Outcome) :
  in_step w ->
  nth_error (inflight w) k = Some req ->
  step env (Settled k o) w =
  commit env
    {| page := run (fetchPosts_settle (req_page req) o) (page w);
       deps := deps w; inflight := remove_nth k (inflight w);
       boundary := boundary w; screen := screen w;
       console := console w ++ logged (fetchPosts_settle (req_page req) o) |}.
Proof.
  intros Hdeps Hk. cbn [step]. rewrite Hk. cbn zeta.
  apply flush_skipped_commit. unfold deps_changed. cbn [deps page].
  rewrite Hdeps.
  replace (currentPage (run (fetchPosts_settle (req_page req) o) (page w)))
    with (currentPage (page w)) by (destruct o; reflexivity).
  now rewrite Z.eqb_refl.
Qed.

Lemma run_settle_resolved (page : Z) (newPosts : list NotionPost) (total : Z)
    (m : BlogPage.State) :
  run (fetchPosts_settle page (Resolved newPosts total)) m =
  {| posts := newPosts; currentPage := currentPage m; totalPages := total;
     isLoading := false; error := error m |}.
Proof. reflexivity. Qed.

Lemma run_settle_rejected (page : Z) (err : Fault) (m : BlogPage.State) :
  run (fetchPosts_settle page (Rejected err)) m =
  {| posts := posts m; currentPage := currentPage m;
     totalPages := totalPages m; isLoading := false;
     error := Some FETCH_ERROR_MESSAGE |}.
Proof. reflexivity. Qed.

(** ** The boundary inside the page *)

Lemma commit_keeps_tripped (env : Collaborators) (w : World) :
  tripped w = true ->
  (status (page w) = Ready /\ tripped (commit env w) = true /\
   screen (commit env w) = Bounded (ErrorBoundary.Fallback ErrorBoundary.fallback)) \/
  (status (page w) <> Ready /\ boundary (commit env w) = None).
Proof.
  intros Ht. destruct (status (page w)) eqn:Hst.
  1,2: right; split; [discriminate |];
       apply commit_not_ready; rewrite Hst; discriminate.
  left. split; [reflexivity |].
  apply render_ready in Hst. unfold commit, tripped in *. rewrite Hst.
  destruct (boundary w) as [[[|]] |]; try discriminate. split; reflexivity.
Qed.

Lemma useEffect_ready (w : World) :
  status (page (useEffect w)) = Ready -> page (useEffect w) = page w.
Proof.
  unfold useEffect. destruct (deps_changed w); [discriminate | reflexivity].
Qed.

Lemma useEffect_boundary (w : World) : boundary (useEffect w) = boundary w.
Proof. unfold useEffect. destruct (deps_changed w); reflexivity. Qed.

Lemma flush_keeps_tripped (env : Collaborators) (w : World) :
  tripped w = true ->
  boundary (flush env w) = None \/
  (tripped (flush env w) = true /\
   screen (flush env w) = Bounded (ErrorBoundary.Fallback ErrorBoundary.fallback)).
Proof.
  intros Ht. unfold flush.
  destruct (commit_keeps_tripped env w Ht) as [(_ & H1 & _) | [Hnr H1]].
  - assert (H2 : tripped (useEffect (commit env w)) = true)
      by (unfold tripped in *; now rewrite useEffect_boundary).
    destruct (commit_keeps_tripped env _ H2) as [(_ & H3 & H4) | [_ H3]]; auto.
  - left. apply commit_not_ready. intros Hr.
    apply Hnr. rewrite <- (commit_page env w).
    now rewrite <- (useEffect_ready _ Hr).
Qed.

Lemma commit_tripped_screen (env : Collaborators) (w : World) :
  tripped (commit env w) = true ->
  screen (commit env w) = Bounded (ErrorBoundary.Fallback ErrorBoundary.fallback).
Proof.
  unfold commit, tripped.
  destruct (render (page w)) as [| h | c]; try discriminate.
  pose proof (render_boundary_cases env
                match boundary w with
                | Some st => st
                | None => ErrorBoundary.initial
                end c) as H.
  destruct (render_boundary _ _ _) as [[st' out] logs]. cbn.
  destruct H as [(_ & -> & _) | (-> & _)]; [reflexivity | discriminate].
Qed.

(** C7.  A tripped boundary never un-trips within its lifetime: neither of
    the two steps of its state machine clears [hasError], so after any
    sequence of them [render] returns the fixed fallback (the heading
    "Something went wrong" and the explanatory paragraph) and not the
    wrapped children; inside the page, in every reachable state with a
    tripped boundary the fallback is on screen, and after any event (a
    further render included) the boundary is either still tripped, with
    the fallback on screen, or has been unmounted. *)
Theorem tripped_boundary_stays_tripped :
  forall st : ErrorBoundary.State,
    ErrorBoundary.hasError st = true ->
    (forall ev : ErrorBoundary.Event,
        ErrorBoundary.hasError (ErrorBoundary.step ev st) = true) /\
    (forall (evs : list ErrorBoundary.Event) (C : Type) (children : C),
        ErrorBoundary.hasError (ErrorBoundary.steps evs st) = true /\
        ErrorBoundary.render (ErrorBoundary.steps evs st) children =
        ErrorBoundary.Fallback
          {| ErrorBoundary.heading := "Something went wrong";
             ErrorBoundary.text :=
               "An error occurred while rendering the blog posts. Please try again later." |}) /\
    (forall (env : Collaborators) (evs : list Event),
        let w := steps env evs (mount env) in
        boundary w = Some st ->
        screen w = Bounded (ErrorBoundary.Fallback ErrorBoundary.fallback) /\
        forall ev : Event,
          boundary (step env ev w) = None \/
          (tripped (step env ev w) = true /\
           screen (step env ev w) =
           Bounded (ErrorBoundary.Fallback ErrorBoundary.fallback))).
Proof.
  intros st Hst. split; [| split].
  - intros ev. now apply boundary_step_keeps_tripped.
  - intros evs C children.
    pose proof (boundary_steps_keep_tripped evs st Hst) as H.
    split; [exact H |]. unfold ErrorBoundary.render. now rewrite H.
  - intros env evs w Hb.
    assert (Ht : tripped w = true) by (unfold tripped; now rewrite Hb).
    assert (Hscreen : screen w =
              Bounded (ErrorBoundary.Fallback ErrorBoundary.fallback)).
    { subst w. destruct (steps_committed env evs) as [w0 E].
      rewrite E in *. now apply commit_tripped_screen. }
    split; [exact Hscreen |]. clearbody w.
    intros ev. destruct ev as [p | k o |]; cbn [step].
    + destruct (p =? currentPage (page w)); [now right |].
      apply flush_keeps_tripped. exact Ht.
    + destruct (nth_error (inflight w) k); [| now right].
      apply flush_keeps_tripped. exact Ht.
    + apply flush_keeps_tripped. exact Ht.
Qed.

(** ** Who writes [totalPages] *)

Lemma step_totalPages (env : Collaborators) (ev : Event) (w : World) :
  totalPages (page (step env ev w)) = totalPages (page w) \/
  exists (k : nat) (newPosts : list NotionPost) (total : Z) (req : Request),
    ev = Settled k (Resolved newPosts total) /\
    nth_error (inflight w) k = Some req /\
    totalPages (page (step env ev w)) = total.
Proof.
  destruct ev as [p | k o |]; cbn [step].
  - left. destruct (p =? currentPage (page w)); [reflexivity |].
    now rewrite flush_totalPages.
  - destruct (nth_error (inflight w) k) as [req |] eqn:Hk; [| now left].
    rewrite flush_totalPages. destruct o as [newPosts total | err]; cbn.
    + right. now exists k, newPosts, total, req.
    + now left.
  - left. apply flush_totalPages.
Qed.

Lemma steps_totalPages (env : Collaborators) (P : Z -> Prop)
    (evs : list Event) (w : World) :
  P (totalPages (page w)) ->
  (forall ev total, In ev evs -> resolved_total ev = Some total -> P total) ->
  P (totalPages (page (steps env evs w))).
Proof.
  unfold steps. revert w.
  induction evs as [| ev evs IH]; intros w Hw Hevs; cbn [fold_left].
  - exact Hw.
  - apply IH.
    + destruct (step_totalPages env ev w)
        as [-> | (k & newPosts & total & req & -> & _ & ->)]; [exact Hw |].
      apply (Hevs (Settled k (Resolved newPosts total))); [now left | reflexivity].
    + intros ev' total Hin. apply Hevs. now right.
Qed.

(** C8 (amended).  [totalPages] is 0 in every reachable state before the
    first successful fetch completes, and it is only ever assigned by a
    successful fetch: an event that changes it is the resolution of a
    pending request, and the new value is the total of that response,
    stored as it comes.  It is therefore a non-negative integer as long as
    every total the data source has resolved with is non-negative. *)
Theorem totalPages_written_only_by_success :
  forall (env : Collaborators) (evs : list Event),
    let w := steps env evs (mount env) in
    ((forall ev, In ev evs -> resolved_total ev = None) ->
     totalPages (page w) = 0) /\
    (forall ev : Event,
        totalPages (page (step env ev w)) <> totalPages (page w) ->
        exists (k : nat) (newPosts : list NotionPost) (total : Z) (req : Request),
          ev = Settled k (Resolved newPosts total) /\
          nth_error (inflight w) k = Some req /\
          totalPages (page (step env ev w)) = total) /\
    (writes_totalPages (fst (fetchPosts_start (currentPage (page w)))) = false /\
     forall (p : Z) (err : Fault),
       writes_totalPages (fetchPosts_settle p (Rejected err)) = false) /\
    ((forall ev total, In ev evs -> resolved_total ev = Some total -> 0 <= total) ->
     0 <= totalPages (page w)).
Proof.
  intros env evs w. subst w.
  assert (H0 : totalPages (page (mount env)) = 0)
    by (unfold mount; now rewrite flush_totalPages).
  split; [| split; [| split]].
  - intros Hnone.
    apply (steps_totalPages env (fun t => t = 0)); [exact H0 |].
    intros ev total Hin Hres. rewrite (Hnone ev Hin) in Hres. discriminate.
  - intros ev Hne.
    destruct (step_totalPages env ev (steps env evs (mount env))) as [E | H];
      [contradiction | exact H].
  - split; [reflexivity | intros; reflexivity].
  - intros Hnonneg.
    apply (steps_totalPages env (fun t => 0 <= t)); [| exact Hnonneg].
    rewrite H0. lia.
Qed.

(** ** Asking again *)

(** Asking for the page already shown starts nothing. *)
Remark same_page_request_ignored (env : Collaborators) (w : World) :
  step env (PageChange (currentPage (page w))) w = w.
Proof.
  cbn [step]. now rewrite Z.eqb_refl.
Qed.

(** ** What holds however requests overlap *)

Lemma step_well_shaped (env : Collaborators) (ev : Event) (w : World) :
  in_step w -> well_shaped (page w) -> well_shaped (page (step env ev w)).
Proof.
  intros Hd [Hl He]. destruct ev as [p | k o |].
  - destruct (Z.eq_dec p (currentPage (page w))) as [-> | Hne].
    + rewrite same_page_request_ignored. now split.
    + destruct (page_change_loading env w p Hd Hne) as (-> & _).
      split; cbn; [intros _; now split | now left].
  - destruct (nth_error (inflight w) k) as [req |] eqn:Hk;
      [| cbn [step]; rewrite Hk; now split].
    rewrite (settle_step env w k req o Hd Hk), commit_page. cbn [page].
    destruct o as [newPosts total | err].
    + rewrite run_settle_resolved. split; cbn; [discriminate | exact He].
    + rewrite run_settle_rejected. split; cbn; [discriminate | now right].
  - cbn [step].
    rewrite flush_skipped_commit by now apply in_step_deps_unchanged.
    rewrite commit_page. now split.
Qed.

Lemma steps_well_shaped (env : Collaborators) (evs : list Event) :
  well_shaped (page (steps env evs (mount env))).
Proof.
  unfold steps.
  assert (H0 : in_step (mount env) /\ well_shaped (page (mount env))).
  { split; [apply flush_deps |].
    destruct (mount_loading env) as (-> & _).
    split; cbn; [intros _; now split | now left]. }
  revert H0. generalize (mount env).
  induction evs as [| ev evs IH]; intros w [Cw Hw]; cbn [fold_left].
  - exact Hw.
  - apply IH. split; [now apply step_in_step | now apply step_well_shaped].
Qed.

Lemma step_loader_backed (env : Collaborators) (ev : Event) (w : World) :
  in_step w -> loader_backed w -> loader_backed (step env ev w).
Proof.
  intros Hd Hb. destruct ev as [p | k o |].
  - destruct (Z.eq_dec p (currentPage (page w))) as [-> | Hne].
    + now rewrite same_page_request_ignored.
    + destruct (page_change_loading env w p Hd Hne) as (Hp & _ & Hi).
      intros _. rewrite Hp, Hi. cbn. now exists (inflight w).
  - destruct (nth_error (inflight w) k) as [req |] eqn:Hk;
      [| cbn [step]; now rewrite Hk].
    unfold loader_backed.
    rewrite (settle_step env w k req o Hd Hk), commit_page. cbn [page].
    destruct o; cbn; discriminate.
  - cbn [step].
    destruct (flush_effect_skipped env w (in_step_deps_unchanged w Hd))
      as (Hp & Hi & _).
    unfold loader_backed. now rewrite Hp, Hi.
Qed.

Lemma steps_loader_backed (env : Collaborators) (evs : list Event) :
  loader_backed (steps env evs (mount env)).
Proof.
  unfold steps.
  assert (H0 : in_step (mount env) /\ loader_backed (mount env)).
  { split; [apply flush_deps |].
    destruct (mount_loading env) as (Hp & _ & Hi).
    intros _. rewrite Hp, Hi. now exists []. }
  revert H0. generalize (mount env).
  induction evs as [| ev evs IH]; intros w [Cw Hw]; cbn [fold_left].
  - exact Hw.
  - apply IH. split; [now apply step_in_step | now apply step_loader_backed].
Qed.

(** ** Settling and entering Loading, on the mounted page *)



(** C5 (amended).  Whenever a pending request resolves with the posts
    [newPosts] (N of them) and the page count [total], the state
    afterwards has [posts] equal to [newPosts], so N posts in the order
    the source gave them, [totalPages = total] and the loading flag down.
    The continuation leaves the error as it finds it: the status is Ready
    when no error is stored at that moment, as in every fetch cycle that
    nothing interleaves with. *)
Theorem fetch_success_state :
  forall (newPosts : list NotionPost) (total : Z),
    (forall s : BlogPage.State,
        let s' := fetch_cycle (Resolved newPosts total) s in
        posts s' = newPosts /\
        List.length (posts s') = List.length newPosts /\
        totalPages s' = total /\
        status s' = Ready) /\
    (forall (env : Collaborators) (evs : list Event) (k : nat),
        let w := steps env evs (mount env) in
        nth_error (inflight w) k <> None ->
        let w' := step env (Settled k (Resolved newPosts total)) w in
        posts (page w') = newPosts /\
        List.length (posts (page w')) = List.length newPosts /\
        totalPages (page w') = total /\
        isLoading (page w') = false /\
        error (page w') = error (page w) /\
        (error (page w) = None -> status (page w') = Ready) /\
        inflight w' = remove_nth k (inflight w)).
Proof.
  intros newPosts total. split.
  - intros s s'. subst s'. rewrite fetch_cycle_resolved. cbn. repeat split.
  - intros env evs k w Hk w'. subst w'.
    destruct (nth_error (inflight w) k) as [req |] eqn:Hreq;
      [| contradiction].
    rewrite (settle_step env w k req _ (steps_in_step env evs) Hreq).
    rewrite commit_page, commit_inflight. cbn [page inflight].
    rewrite run_settle_resolved. unfold status. cbn.
    repeat split. intros ->. reflexivity.
Qed.

(** C4 (amended).  Whenever a pending request is rejected, with whatever
    fault, the state afterwards has status Error and the fixed message
    "Failed to load blog posts. Please try again later." as error, which
    is the heading on screen.  The continuation leaves the posts as it
    finds them: they are empty whenever the loading flag is still up when
    the rejection arrives, as in every fetch cycle that nothing
    interleaves with. *)
Theorem fetch_failure_state :
  forall err : Fault,
    (forall s : BlogPage.State,
        let s' := fetch_cycle (Rejected err) s in
        posts s' = [] /\
        List.length (posts s') = 0%nat /\
        status s' = Error /\
        error s' = Some "Failed to load blog posts. Please try again later."%string) /\
    (forall (env : Collaborators) (evs : list Event) (k : nat),
        let w := steps env evs (mount env) in
        nth_error (inflight w) k <> None ->
        let w' := step env (Settled k (Rejected err)) w in
        status (page w') = Error /\
        error (page w') = Some "Failed to load blog posts. Please try again later."%string /\
        screen w' = ErrorPanel "Failed to load blog posts. Please try again later." /\
        posts (page w') = posts (page w) /\
        (isLoading (page w) = true ->
         posts (page w') = [] /\ List.length (posts (page w')) = 0%nat) /\
        inflight w' = remove_nth k (inflight w)).
Proof.
  intros err. split.
  - intros s s'. subst s'. rewrite fetch_cycle_rejected. cbn. repeat split.
  - intros env evs k w Hk w'. subst w'.
    destruct (nth_error (inflight w) k) as [req |] eqn:Hreq;
      [| contradiction].
    pose proof (steps_well_shaped env evs) as [Hl _]. fold w in Hl.
    rewrite (settle_step env w k req _ (steps_in_step env evs) Hreq).
    rewrite commit_page, commit_inflight. cbn [page inflight].
    rewrite run_settle_rejected.
    split; [reflexivity |]. split; [reflexivity |]. split.
    { reflexivity. }
    split; [reflexivity |]. split; [| reflexivity].
    intros Hload. destruct (Hl Hload) as [E _]. cbn [posts]. rewrite E.
    split; reflexivity.
Qed.

Lemma step_currentPage (env : Collaborators) (ev : Event) (w : World) :
  currentPage (page (step env ev w)) <> currentPage (page w) ->
  exists p, ev = PageChange p /\ p <> currentPage (page w).
Proof.
  destruct ev as [p | k o |]; cbn [step].
  - destruct (Z.eqb_spec p (currentPage (page w)));
      [intros H; now contradiction H |].
    intros _. now exists p.
  - destruct (nth_error (inflight w) k); [| intros H; now contradiction H].
    rewrite flush_currentPage. cbn [page].
    intros H. exfalso. apply H. destruct o; reflexivity.
  - rewrite flush_currentPage. intros H. now contradiction H.
Qed.

(** C6.  On mount, and on every change of [currentPage] in any state the
    page can reach (the error panel included, and to any page [p >= 1]),
    the state is in Loading before the request settles: [posts] is empty,
    [error] is null, the status is Loading and the loader is on screen,
    while the request just issued, for the page [currentPage] with page
    size 9, has joined the pending ones. *)
Theorem page_request_enters_loading :
  forall env : Collaborators,
    (let w := mount env in
     posts (page w) = [] /\ error (page w) = None /\
     status (page w) = Loading /\ screen w = Loader /\
     currentPage (page w) = 1 /\
     inflight w = [{| req_page := 1; req_pageSize := 9 |}]) /\
    (forall (evs : list Event) (p : Z),
        1 <= p ->
        let w := steps env evs (mount env) in
        p <> currentPage (page w) ->
        let w' := step env (PageChange p) w in
        currentPage (page w') = p /\
        posts (page w') = [] /\ error (page w') = None /\
        status (page w') = Loading /\ screen w' = Loader /\
        inflight w' = inflight w ++ [{| req_page := p; req_pageSize := 9 |}]) /\
    (forall (evs : list Event) (ev : Event),
        let w := steps env evs (mount env) in
        let w' := step env ev w in
        currentPage (page w') <> currentPage (page w) ->
        posts (page w') = [] /\ error (page w') = None /\
        status (page w') = Loading /\ screen w' = Loader /\
        inflight w' =
          inflight w ++ [{| req_page := currentPage (page w');
                            req_pageSize := 9 |}]).
Proof.
  intros env. split; [| split].
  - cbn zeta. destruct (mount_loading env) as (-> & -> & ->).
    cbn. repeat split.
  - intros evs p _ w Hne w'. subst w'.
    destruct (page_change_loading env w p (steps_in_step env evs) Hne)
      as (-> & -> & ->).
    cbn. repeat split.
  - intros evs ev w w' Hchg. subst w'.
    destruct (step_currentPage env ev w Hchg) as (p & -> & Hne).
    destruct (page_change_loading env w p (steps_in_step env evs) Hne)
      as (-> & -> & ->).
    cbn. repeat split.
Qed.

(** ** Concrete scenarios *)

(** C1, as stated, fails.  Page 1 resolves with three posts and three
    pages, and [BlogCard] throws on the second post only.  The page is
    Ready with a non-empty list, yet neither the first nor the third card
    is on screen, and neither is the pager although [totalPages > 1]: the
    single boundary around the whole listing has put its fallback in their
    place. *)
Lemma card_fault_not_isolated :
  let w := steps card_b_throws
             [Settled 0 (Resolved [post_a; post_b; post_c] 3)]
             (mount card_b_throws) in
  status (page w) = Ready /\
  posts (page w) = [post_a; post_b; post_c] /\
  BlogCard card_b_throws post_a = None /\
  BlogCard card_b_throws post_b <> None /\
  BlogCard card_b_throws post_c = None /\
  1 < totalPages (page w) /\
  ~ In post_a (shown_cards (screen w)) /\
  ~ In post_c (shown_cards (screen w)) /\
  shown_pager (screen w) = None /\
  screen w = Bounded (ErrorBoundary.Fallback ErrorBoundary.fallback).
Proof.
  vm_compute. repeat split; try reflexivity; try discriminate; auto.
Qed.

(** C3, as stated, fails.  Page 1 resolves with one post, on which
    [BlogCard] throws, and two pages.  The status is Ready and
    [totalPages > 1], but the boundary has tripped and the pager is not on
    screen. *)
Lemma pager_hidden_when_tripped :
  let w := steps card_b_throws
             [Settled 0 (Resolved [post_b] 2)]
             (mount card_b_throws) in
  tripped w = true /\
  ~ (shown_pager (screen w) <> None <->
     (status (page w) = Ready /\ 1 < totalPages (page w))).
Proof.
  vm_compute. split; [reflexivity |].
  intros [_ H]. apply H; [| reflexivity]. split; reflexivity.
Qed.


(** C8, as stated, fails.  The page stores the total of a response without
    looking at it: a response with the total -1 leaves [totalPages]
    negative. *)
Lemma negative_total_is_stored :
  let w := steps sound_cards
             [Settled 0 (Resolved [] (-1))]
             (mount sound_cards) in
  status (page w) = Ready /\
  totalPages (page w) = -1 /\
  ~ 0 <= totalPages (page w).
Proof. vm_compute. repeat split. intros H. now apply H. Qed.

(** The amended C1 at work: the reader is on a page of three posts when
    the second card starts to throw. *)
Lemma card_fault_blanks_boundary_witness :
  let w := steps sound_cards
             [Settled 0 (Resolved [post_a; post_b; post_c] 3)]
             (mount sound_cards) in
  (status (page w) = Ready /\ posts (page w) <> [] /\
   In post_b (posts (page w)) /\ BlogCard card_b_throws post_b <> None) /\
  shown_cards (screen w) = [post_a; post_b; post_c] /\
  shown_cards (screen (commit card_b_throws w)) = [] /\
  shown_pager (screen (commit card_b_throws w)) = None.
Proof.
  intros w.
  assert (H1 : status (page w) = Ready) by reflexivity.
  assert (H2 : posts (page w) <> []) by (vm_compute; discriminate).
  assert (H3 : In post_b (posts (page w))) by (vm_compute; auto).
  assert (H4 : BlogCard card_b_throws post_b <> None) by (vm_compute; discriminate).
  split; [repeat split; assumption |].
  split; [reflexivity |].
  pose proof (card_fault_blanks_boundary card_b_throws w post_b H1 H2 H3 H4) as H.
  cbn zeta in H. destruct H as (_ & _ & Hc & Hp & _). split; assumption.
Defined.

(** The amended C3 at work: three pages, nothing throws, the pager shows. *)
Lemma pager_shown_iff_witness :
  let w := steps sound_cards
             [Settled 0 (Resolved [post_a] 3)]
             (mount sound_cards) in
  (status (page w) = Ready /\ 1 < totalPages (page w) /\ tripped w = false) /\
  shown_pager (screen w) <> None.
Proof.
  intros w.
  assert (H : status (page w) = Ready /\ 1 < totalPages (page w) /\
              tripped w = false) by (vm_compute; repeat split).
  split; [exact H |].
  exact (proj2 (proj1 (pager_shown_iff sound_cards
                         [Settled 0 (Resolved [post_a] 3)])) H).
Defined.

(** C7 at work: a boundary that has caught one error is rendered again
    and again. *)
Lemma tripped_boundary_stays_tripped_witness :
  let st := ErrorBoundary.step (ErrorBoundary.Caught ParseFault)
              ErrorBoundary.initial in
  ErrorBoundary.hasError st = true /\
  ErrorBoundary.render
    (ErrorBoundary.steps [ErrorBoundary.Rerender; ErrorBoundary.Rerender] st)
    [post_a]
  = ErrorBoundary.Fallback ErrorBoundary.fallback.
Proof.
  intros st.
  assert (H : ErrorBoundary.hasError st = true) by reflexivity.
  split; [exact H |].
  exact (proj2 (proj1 (proj2 (tripped_boundary_stays_tripped st H))
                  [ErrorBoundary.Rerender; ErrorBoundary.Rerender]
                  (list NotionPost) [post_a])).
Defined.

(** The amended C8 at work: a rejection, then a resolution with total 3. *)
Lemma totalPages_written_only_by_success_witness :
  let before := [Settled 0 (Rejected NetworkFault)] in
  (forall ev, In ev before -> resolved_total ev = None) /\
  totalPages (page (steps sound_cards before (mount sound_cards))) = 0.
Proof.
  intros before.
  assert (H : forall ev, In ev before -> resolved_total ev = None).
  { intros ev [<- | []]. reflexivity. }
  split; [exact H |].
  exact (proj1 (totalPages_written_only_by_success sound_cards before) H).
Defined.

(** Page 2 with page size 9: the source returns five posts and three
    pages; five cards are on screen and the pager shows page 2 of 3. *)
Example five_cards_page_two_of_three :
  let w := steps sound_cards
             [Settled 0 (Resolved [post_a] 3);
              PageChange 2;
              Settled 0 (Resolved [post_a; post_b; post_c; post_d; post_e] 3)]
             (mount sound_cards) in
  shown_cards (screen w) = [post_a; post_b; post_c; post_d; post_e] /\
  shown_pager (screen w) =
    Some {| pager_currentPage := 2; pager_totalPages := 3 |} /\
  console w = [LogFetching; LogFetched 1 1; LogFetching; LogFetched 5 2].
Proof. vm_compute. repeat split. Qed.

(** The source rejects: the error heading is on screen, with no card and
    no pager. *)
Example rejection_shows_error_panel :
  let w := steps sound_cards
             [Settled 0 (Rejected (ServerFault 500))]
             (mount sound_cards) in
  screen w = ErrorPanel "Failed to load blog posts. Please try again later." /\
  shown_cards (screen w) = [] /\ shown_pager (screen w) = None /\
  console w = [LogFetching; LogFetchError (ServerFault 500)].
Proof. vm_compute. repeat split. Qed.

(** C4, as stated, fails.  While page 1 is loading the reader is taken to
    page 2, so two requests are pending; the first resolves with a post,
    then the second is rejected.  The status is Error with the fixed
    message, and the post is still in the list. *)
Lemma stale_posts_outlive_rejection :
  let w := steps sound_cards
             [PageChange 2;
              Settled 0 (Resolved [post_a] 3);
              Settled 0 (Rejected NetworkFault)]
             (mount sound_cards) in
  inflight w = [] /\
  status (page w) = Error /\
  error (page w) = Some FETCH_ERROR_MESSAGE /\
  posts (page w) = [post_a] /\
  posts (page w) <> [].
Proof. vm_compute. repeat split. discriminate. Qed.

(** C5, as stated, fails.  With the same two requests pending, the first
    is rejected and the second then resolves with one post and three
    pages.  The list and the page count are those of the response, but the
    error of the rejection is still stored and the status is Error, not
    Ready. *)
Lemma stale_error_outlives_resolution :
  let w := steps sound_cards
             [PageChange 2;
              Settled 0 (Rejected NetworkFault);
              Settled 0 (Resolved [post_a] 3)]
             (mount sound_cards) in
  inflight w = [] /\
  posts (page w) = [post_a] /\ totalPages (page w) = 3 /\
  status (page w) = Error /\
  status (page w) <> Ready /\
  screen w = ErrorPanel "Failed to load blog posts. Please try again later.".
Proof. vm_compute. repeat split. discriminate. Qed.


(** The amended C4 at work: the rejection arrives while the loader is
    still up, so the list is empty. *)
Lemma fetch_failure_state_witness :
  let w := steps sound_cards [] (mount sound_cards) in
  let w' := step sound_cards (Settled 0 (Rejected (ServerFault 503))) w in
  (nth_error (inflight w) 0 <> None /\ isLoading (page w) = true) /\
  status (page w') = Error /\ posts (page w') = [].
Proof.
  intros w w'.
  assert (Hk : nth_error (inflight w) 0 <> None) by (vm_compute; discriminate).
  assert (Hl : isLoading (page w) = true) by reflexivity.
  split; [split; assumption |].
  destruct (proj2 (fetch_failure_state (ServerFault 503)) sound_cards [] 0%nat Hk)
    as (Hs & _ & _ & _ & Hp & _).
  split; [exact Hs | exact (proj1 (Hp Hl))].
Defined.

(** The amended C5 at work: page 2 of 3 resolves with five posts, no error
    being stored. *)
Lemma fetch_success_state_witness :
  let five := [post_a; post_b; post_c; post_d; post_e] in
  let evs := [Settled 0 (Resolved [post_a] 3); PageChange 2] in
  let w := steps sound_cards evs (mount sound_cards) in
  let w' := step sound_cards (Settled 0 (Resolved five 3)) w in
  (nth_error (inflight w) 0 <> None /\ error (page w) = None) /\
  List.length (posts (page w')) = 5%nat /\ status (page w') = Ready.
Proof.
  intros five evs w w'.
  assert (Hk : nth_error (inflight w) 0 <> None) by (vm_compute; discriminate).
  assert (He : error (page w) = None) by reflexivity.
  split; [split; assumption |].
  destruct (proj2 (fetch_success_state five 3) sound_cards evs 0%nat Hk)
    as (_ & Hn & _ & _ & _ & Hr & _).
  split; [exact Hn | exact (Hr He)].
Defined.

(** C6 at work: the first request has been rejected and the error panel
    is shown when the page changes to 2; the error is cleared. *)
Lemma page_request_enters_loading_witness :
  let evs := [Settled 0 (Rejected NetworkFault)] in
  let w := steps sound_cards evs (mount sound_cards) in
  let w' := step sound_cards (PageChange 2) w in
  (1 <= 2 /\ 2 <> currentPage (page w)) /\
  error (page w) = Some FETCH_ERROR_MESSAGE /\
  error (page w') = None /\
  status (page w') = Loading /\
  inflight w' = [{| req_page := 2; req_pageSize := 9 |}].
Proof.
  intros evs w w'.
  assert (H1 : 1 <= 2) by lia.
  assert (H2 : 2 <> currentPage (page w)) by (vm_compute; discriminate).
  split; [split; assumption |].
  split; [reflexivity |].
  destruct (proj1 (proj2 (page_request_enters_loading sound_cards))
              evs 2 H1 H2) as (_ & _ & He & Hs & _ & Hi).
  repeat split; assumption.
Defined.

(** ** Rendering again *)

Lemma flush_reachable (env : Collaborators) (evs : list Event) :
  flush env (steps env evs (mount env)) = steps env evs (mount env).
Proof.
  rewrite flush_skipped_commit
    by (apply in_step_deps_unchanged, steps_in_step).
  destruct (steps_committed env evs) as [w0 ->]. apply commit_idempotent.
Qed.

(** X1.  Rendering the page again with its state as it is changes nothing
    in any reachable state: the effect, whose only dependency is
    [currentPage], does not run, so no request is issued and nothing is
    logged, and the screen and the boundary stay as they are. *)
Theorem rerender_changes_nothing :
  forall (env : Collaborators) (evs : list Event),
    let w := steps env evs (mount env) in
    step env Rerender w = w /\
    inflight (step env Rerender w) = inflight w /\
    console (step env Rerender w) = console w.
Proof.
  intros env evs w. subst w. cbn [step].
  rewrite flush_reachable. repeat split.
Qed.

(** ** Behind the loader *)

(** X2.  However requests overlap, in every reachable state the error is
    either null or the one fixed message, and while the status is Loading
    the list of posts is empty and the error is null: posts and an error
    are only ever seen off the loader. *)
Theorem loading_state_is_clean :
  forall (env : Collaborators) (evs : list Event),
    let s := page (steps env evs (mount env)) in
    (status s = Loading -> posts s = [] /\ error s = None) /\
    (error s = None \/ error s = Some FETCH_ERROR_MESSAGE) /\
    (posts s <> [] -> status s = Ready \/ status s = Error).
Proof.
  intros env evs s.
  pose proof (steps_well_shaped env evs) as [Hl He]. fold s in Hl, He.
  assert (Hload : status s = Loading -> isLoading s = true).
  { unfold status. destruct (isLoading s); [reflexivity |].
    destruct (truthy (error s)); discriminate. }
  split; [| split].
  - intros Hst. apply Hl, Hload, Hst.
  - exact He.
  - intros Hp. destruct (status s) eqn:Hst; auto.
    destruct (Hl (Hload eq_refl)) as [E _]. contradiction.
Qed.

Lemma remove_nth_Forall {A : Type} (P : A -> Prop) (k : nat) (l : list A) :
  Forall P l -> Forall P (remove_nth k l).
Proof.
  intros H. revert k. induction H as [| x l Hx Hl IH]; intros [| k]; cbn;
    auto.
Qed.

Lemma flush_page_size (env : Collaborators) (w : World) :
  Forall (fun r => req_pageSize r = 9) (inflight w) ->
  Forall (fun r => req_pageSize r = 9) (inflight (flush env w)).
Proof.
  intros H. rewrite flush_inflight. destruct (deps_changed w); [| exact H].
  apply Forall_app. split; [exact H |]. now constructor.
Qed.

Lemma steps_page_size (env : Collaborators) (evs : list Event) :
  Forall (fun r => req_pageSize r = 9) (inflight (steps env evs (mount env))).
Proof.
  unfold steps.
  assert (H0 : Forall (fun r => req_pageSize r = 9) (inflight (mount env)))
    by (apply flush_page_size; constructor).
  revert H0. generalize (mount env).
  induction evs as [| ev evs IH]; intros w Hw; cbn [fold_left].
  - exact Hw.
  - apply IH. destruct ev as [p | k o |]; cbn [step].
    + destruct (p =? currentPage (page w)); [exact Hw |].
      now apply flush_page_size.
    + destruct (nth_error (inflight w) k); [| exact Hw].
      apply flush_page_size. cbn [inflight]. now apply remove_nth_Forall.
    + now apply flush_page_size.
Qed.

(** X3.  The loader never spins over nothing: in every reachable state
    whose status is Loading a request is pending, and the one issued last
    is the request for the current page; every pending request, however
    many overlap, has page size 9. *)
Theorem loader_backed_by_request :
  forall (env : Collaborators) (evs : list Event),
    let w := steps env evs (mount env) in
    (status (page w) = Loading ->
     inflight w <> [] /\
     exists earlier,
       inflight w = earlier ++ [{| req_page := currentPage (page w);
                                   req_pageSize := 9 |}]) /\
    (forall r, In r (inflight w) -> req_pageSize r = 9).
Proof.
  intros env evs w. split.
  - intros Hst.
    assert (Hl : isLoading (page w) = true).
    { unfold status in Hst. destruct (isLoading (page w)); [reflexivity |].
      destruct (truthy (error (page w))); discriminate. }
    destruct (steps_loader_backed env evs Hl) as [earlier E]. fold w in E.
    split; [| now exists earlier].
    rewrite E. now destruct earlier.
  - apply Forall_forall, steps_page_size.
Qed.

(** ** What is on screen *)

Lemma shown_cards_children (s : BlogPage.State) :
  shown_cards (Bounded (ErrorBoundary.Children (boundary_children s))) = posts s.
Proof.
  unfold shown_cards, boundary_children; cbn.
  destruct (posts s) as [| p ps]; cbn; [reflexivity |].
  now rewrite map_id.
Qed.

Lemma commit_ready_screen (env : Collaborators) (w : World) :
  status (page w) = Ready ->
  let w' := commit env w in
  if tripped w'
  then screen w' = Bounded (ErrorBoundary.Fallback ErrorBoundary.fallback)
  else screen w' =
       Bounded (ErrorBoundary.Children (boundary_children (page w))).
Proof.
  intros Hst. cbn zeta. apply render_ready in Hst.
  unfold commit, tripped. rewrite Hst.
  pose proof (render_boundary_cases env
                match boundary w with
                | Some st => st
                | None => ErrorBoundary.initial
                end (boundary_children (page w))) as H.
  destruct (render_boundary _ _ _) as [[st' out] logs]. cbn.
  destruct H as [(-> & -> & _) | (-> & -> & _)]; reflexivity.
Qed.

(** X5.  In every reachable state the body of the page is decided by the
    state alone: the loader when the status is Loading; the error panel,
    headed by the fixed message, when it is Error; and when it is Ready
    either the boundary's fallback, if it has tripped, or else the
    listing, whose cards are exactly the posts of the state, in their
    order, none dropped and none repeated (the empty-state notice when
    there are none). *)
Theorem screen_follows_state :
  forall (env : Collaborators) (evs : list Event),
    let w := steps env evs (mount env) in
    match status (page w) with
    | Loading => screen w = Loader
    | Error =>
        screen w =
        ErrorPanel "Failed to load blog posts. Please try again later."
    | Ready =>
        if tripped w
        then screen w = Bounded (ErrorBoundary.Fallback ErrorBoundary.fallback)
        else screen w =
               Bounded (ErrorBoundary.Children (boundary_children (page w))) /\
             shown_cards (screen w) = posts (page w) /\
             (posts (page w) = [] <->
              listing (boundary_children (page w)) = NoPostsFound)
    end.
Proof.
  intros env evs w.
  pose proof (steps_well_shaped env evs) as [_ He]. fold w in He.
  destruct (steps_committed env evs) as [w0 Hw0]. fold w in Hw0.
  assert (Hp : page w = page w0) by (rewrite Hw0; apply commit_page).
  destruct (status (page w)) eqn:Hst.
  - rewrite Hw0. unfold status in Hst. rewrite Hp in Hst.
    unfold commit, render.
    destruct (isLoading (page w0)); [reflexivity |].
    destruct (truthy (error (page w0))); discriminate.
  - unfold status in Hst.
    destruct (isLoading (page w)) eqn:Hl; [discriminate |].
    destruct He as [E | E].
    + rewrite E in Hst. discriminate.
    + rewrite Hw0. rewrite Hp in Hl, E. unfold commit, render.
      rewrite Hl, E. reflexivity.
  - rewrite Hp in Hst.
    pose proof (commit_ready_screen env w0 Hst) as H. cbn zeta in H.
    rewrite <- Hw0, <- Hp in H.
    destruct (tripped w); [exact H |].
    split; [exact H |]. rewrite H. split; [apply shown_cards_children |].
    unfold boundary_children; cbn.
    destruct (posts (page w)); cbn; split; (reflexivity || discriminate).
Qed.

(** ** A resolution on screen *)

Lemma render_children_boundary (env : Collaborators) (s : BlogPage.State) :
  render_children env (boundary_children s) =
  all_thrown (BlogCard env) (posts s)
  ++ (if 1 <? totalPages s
      then match Pagination env {| pager_currentPage := currentPage s;
                                   pager_totalPages := totalPages s |} with
           | Some e => [e]
           | None => []
           end
      else []).
Proof.
  unfold render_children, boundary_children. cbn [listing pager].
  rewrite map_id. f_equal.
  - now destruct (posts s).
  - now destruct (1 <? totalPages s).
Qed.

Lemma componentDidCatch_all (l : list Fault) :
  flat_map ErrorBoundary.componentDidCatch l = map LogRenderError l.
Proof. induction l as [| x l IH]; cbn; [reflexivity | now rewrite IH]. Qed.

(** A render of a Ready page over a boundary that has not tripped. *)
Lemma commit_fresh (env : Collaborators) (w : World) :
  status (page w) = Ready ->
  tripped w = false ->
  commit env w =
  match render_children env (boundary_children (page w)) with
  | [] =>
      {| page := page w; deps := deps w; inflight := inflight w;
         boundary := Some {| ErrorBoundary.hasError := false |};
         screen := Bounded (ErrorBoundary.Children (boundary_children (page w)));
         console := console w |}
  | e :: es =>
      {| page := page w; deps := deps w; inflight := inflight w;
         boundary := Some {| ErrorBoundary.hasError := true |};
         screen := Bounded (ErrorBoundary.Fallback ErrorBoundary.fallback);
         console := console w ++ map LogRenderError (e :: es) |}
  end.
Proof.
  intros Hst Ht. apply render_ready in Hst. unfold commit. rewrite Hst.
  assert (E : match boundary w with
              | Some st => st
              | None => ErrorBoundary.initial
              end = {| ErrorBoundary.hasError := false |}).
  { unfold tripped in Ht. destruct (boundary w) as [[h] |]; cbn in *;
      [now subst | reflexivity]. }
  rewrite E. unfold render_boundary.
  cbn [ErrorBoundary.render ErrorBoundary.hasError].
  destruct (render_children env _) as [| e es].
  - cbn. now rewrite app_nil_r.
  - rewrite caught_all, componentDidCatch_all. reflexivity.
Qed.

(** X6.  When a pending request resolves while no error is stored and the
    boundary has not tripped, and neither a card of the new posts nor the
    pager throws, the screen shows exactly the new posts as cards, in the
    order of the response, and the pager with the current page and the new
    page count when that count is above 1; the console gains the one line
    counting the posts, which names the page the request was for. *)
Theorem resolution_shows_cards :
  forall (env : Collaborators) (evs : list Event) (k : nat) (req : Request)
         (newPosts : list NotionPost) (total : Z),
    let w := steps env evs (mount env) in
    nth_error (inflight w) k = Some req ->
    error (page w) = None ->
    tripped w = false ->
    first_thrown (BlogCard env) newPosts = None ->
    Pagination env {| pager_currentPage := currentPage (page w);
                      pager_totalPages := total |} = None ->
    let w' := step env (Settled k (Resolved newPosts total)) w in
    shown_cards (screen w') = newPosts /\
    shown_pager (screen w') =
      (if 1 <? total
       then Some {| pager_currentPage := currentPage (page w);
                    pager_totalPages := total |}
       else None) /\
    tripped w' = false /\
    console w' =
      console w ++ [LogFetched (List.length newPosts) (req_page req)].
Proof.
  intros env evs k req newPosts total w Hk Herr Htrip Hcards Hpager w'.
  subst w'.
  rewrite (settle_step env w k req _ (steps_in_step env evs) Hk).
  rewrite run_settle_resolved, Herr.
  rewrite commit_fresh by (cbn; assumption || reflexivity).
  cbn [page]. rewrite render_children_boundary.
  cbn [posts totalPages currentPage].
  apply first_thrown_none in Hcards. rewrite Hcards. cbn [app].
  assert (E : (if 1 <? total
               then match Pagination env
                            {| pager_currentPage := currentPage (page w);
                               pager_totalPages := total |} with
                    | Some e => [e]
                    | None => []
                    end
               else []) = []).
  { rewrite Hpager. now destruct (1 <? total). }
  rewrite E. unfold tripped. cbn [screen boundary console].
  split; [apply shown_cards_children |]. repeat split.
Qed.


(** ** The page number *)

(** X8.  The page number handed to [onPageChange] is taken as it comes:
    also a number below 1 or above [totalPages] becomes [currentPage], and
    the request for it, with page size 9, is issued on top of whatever is
    pending. *)
Theorem page_number_not_validated :
  forall (env : Collaborators) (evs : list Event) (p : Z),
    let w := steps env evs (mount env) in
    p < 1 \/ totalPages (page w) < p ->
    p <> currentPage (page w) ->
    let w' := step env (PageChange p) w in
    currentPage (page w') = p /\
    status (page w') = Loading /\
    inflight w' = inflight w ++ [{| req_page := p; req_pageSize := 9 |}].
Proof.
  intros env evs p w _ Hne w'. subst w'.
  destruct (page_change_loading env w p (steps_in_step env evs) Hne)
    as (-> & _ & ->).
  repeat split.
Qed.

(** ** The console *)

Lemma count_log_app (kind : LogEntry -> bool) (l1 l2 : list LogEntry) :
  count_log kind (l1 ++ l2) = (count_log kind l1 + count_log kind l2)%nat.
Proof. unfold count_log. now rewrite filter_app, length_app. Qed.

Lemma commit_console (env : Collaborators) (w : World) :
  exists faults,
    console (commit env w) = console w ++ map LogRenderError faults.
Proof.
  unfold commit.
  destruct (render (page w)) as [| h | c];
    try (exists []; cbn; now rewrite app_nil_r).
  unfold render_boundary, ErrorBoundary.render.
  destruct (ErrorBoundary.hasError _).
  - exists []. cbn. now rewrite app_nil_r.
  - destruct (render_children env c) as [| e es].
    + exists []. cbn. now rewrite app_nil_r.
    + exists (e :: es). cbn [console]. now rewrite componentDidCatch_all.
Qed.

Lemma commit_count_log (env : Collaborators) (kind : LogEntry -> bool)
    (w : World) :
  (forall e, kind (LogRenderError e) = false) ->
  count_log kind (console (commit env w)) = count_log kind (console w).
Proof.
  intros Hkind. destruct (commit_console env w) as [faults ->].
  rewrite count_log_app.
  assert (E : count_log kind (map LogRenderError faults) = 0%nat).
  { unfold count_log. induction faults as [| e l IH]; cbn; [reflexivity |].
    now rewrite Hkind. }
  rewrite E. lia.
Qed.

Lemma commit_accounted (env : Collaborators) (w : World) :
  accounted w -> accounted (commit env w).
Proof.
  unfold accounted. intros H.
  rewrite !commit_count_log, commit_inflight by reflexivity. exact H.
Qed.

Lemma useEffect_accounted (w : World) : accounted w -> accounted (useEffect w).
Proof.
  unfold accounted, useEffect. intros H.
  destruct (deps_changed w); [| exact H].
  cbn [fetchPosts_start console inflight logged flat_map app].
  rewrite !count_log_app, length_app. unfold count_log at 2 4 6. cbn. lia.
Qed.

Lemma flush_accounted (env : Collaborators) (w : World) :
  accounted w -> accounted (flush env w).
Proof.
  intros H. unfold flush.
  now apply commit_accounted, useEffect_accounted, commit_accounted.
Qed.

Lemma remove_nth_length {A : Type} (k : nat) (l : list A) (x : A) :
  nth_error l k = Some x -> S (List.length (remove_nth k l)) = List.length l.
Proof.
  revert k. induction l as [| y l IH]; intros [| k] H; cbn in *;
    try discriminate; [reflexivity |].
  now rewrite (IH k H).
Qed.

Lemma step_accounted (env : Collaborators) (ev : Event) (w : World) :
  accounted w -> accounted (step env ev w).
Proof.
  intros H. destruct ev as [p | k o |]; cbn [step].
  - destruct (p =? currentPage (page w)); [exact H |].
    apply flush_accounted. exact H.
  - destruct (nth_error (inflight w) k) as [req |] eqn:Hk; [| exact H].
    apply flush_accounted. unfold accounted in *. cbn [console inflight].
    pose proof (remove_nth_length k (inflight w) req Hk) as Hlen.
    rewrite !count_log_app.
    destruct o as [newPosts total | err];
      cbn [fetchPosts_settle logged flat_map app];
      unfold count_log at 2 4 6; cbn; lia.
  - apply flush_accounted. exact H.
Qed.

(** X9.  The console accounts for every request: in every reachable state
    the number of "Fetching blog posts..." lines equals the number of
    "Fetched ..." lines plus the number of "Error fetching posts" lines
    plus the number of requests still pending, so each request started is
    logged exactly once when it settles and never before. *)
Theorem console_accounts_for_requests :
  forall (env : Collaborators) (evs : list Event),
    let w := steps env evs (mount env) in
    count_log is_fetching (console w) =
    (count_log is_fetched (console w) + count_log is_fetch_error (console w)
     + List.length (inflight w))%nat.
Proof.
  intros env evs. cbn zeta. change (accounted (steps env evs (mount env))).
  unfold steps.
  assert (H0 : accounted (mount env))
    by (apply flush_accounted; reflexivity).
  revert H0. generalize (mount env).
  induction evs as [| ev evs IH]; intros w Hw; cbn [fold_left].
  - exact Hw.
  - apply IH. now apply step_accounted.
Qed.

(** ** The boundary, from mount on *)

(** ** The boundary, from mount on *)

Lemma boundary_steps_hasError (evs : list ErrorBoundary.Event)
    (st : ErrorBoundary.State) :
  ErrorBoundary.hasError (ErrorBoundary.steps evs st) =
  ErrorBoundary.hasError st || existsb is_caught evs.
Proof.
  revert st. induction evs as [| ev evs IH]; intros st; cbn.
  - now rewrite orb_false_r.
  - unfold ErrorBoundary.steps in IH. rewrite IH.
    destruct ev; cbn; [reflexivity |]. now rewrite orb_true_r.
Qed.

(** X10.  A mounted boundary renders its fallback if and only if it has
    caught at least one error since it was mounted; until then it returns
    its children untouched, however often it is rendered. *)
Theorem fallback_iff_caught :
  forall (evs : list ErrorBoundary.Event) (C : Type) (children : C),
    let st := ErrorBoundary.steps evs ErrorBoundary.initial in
    (ErrorBoundary.hasError st = true <->
     exists e, In (ErrorBoundary.Caught e) evs) /\
    ErrorBoundary.render st children =
      (if existsb is_caught evs
       then ErrorBoundary.Fallback ErrorBoundary.fallback
       else ErrorBoundary.Children children).
Proof.
  intros evs C children st. subst st.
  unfold ErrorBoundary.render. rewrite boundary_steps_hasError. cbn.
  split; [| reflexivity].
  rewrite existsb_exists. split.
  - intros [[| e] [Hin Hc]]; [discriminate | now exists e].
  - intros [e Hin]. now exists (ErrorBoundary.Caught e).
Qed.

(** ** What trips the boundary *)

(** X11.  A render of a Ready page whose boundary has not tripped trips
    it if and only if one of its children throws; [componentDidCatch]
    then logs one line for each child that throws, a card or the pager,
    and no other line, and rendering the tripped boundary again logs
    nothing more.  When no child throws the console is left as it is. *)
Theorem render_faults_each_logged :
  forall (env : Collaborators) (w : World),
    status (page w) = Ready ->
    tripped w = false ->
    let w' := commit env w in
    let faults :=
      all_thrown (BlogCard env) (posts (page w))
      ++ (if 1 <? totalPages (page w)
          then match Pagination env
                       {| pager_currentPage := currentPage (page w);
                          pager_totalPages := totalPages (page w) |} with
               | Some e => [e]
               | None => []
               end
          else []) in
    (tripped w' = true <-> faults <> []) /\
    (exists logs,
        console w' = console w ++ logs /\
        Permutation logs (map LogRenderError faults)) /\
    console (commit env w') = console w'.
Proof.
  intros env w Hst Ht w' faults. subst w' faults.
  rewrite commit_idempotent, (commit_fresh env w Hst Ht).
  rewrite render_children_boundary.
  destruct (all_thrown (BlogCard env) (posts (page w)) ++ _) as [| e es];
    unfold tripped; cbn [boundary console ErrorBoundary.hasError].
  - split; [split; [discriminate | intros C; now contradiction C] |].
    split; [| reflexivity].
    exists []. split; [now rewrite app_nil_r | constructor].
  - split; [split; [discriminate | reflexivity] |].
    split; [| reflexivity].
    exists (map LogRenderError (e :: es)). split; [reflexivity |].
    apply Permutation_refl.
Qed.

(** X12.  A fault in the pager takes the cards with it: on a Ready page
    whose cards all render, if [Pagination] throws on its props, the
    fallback replaces the listing and no card is left on screen. *)
Theorem pager_fault_blanks_cards :
  forall (env : Collaborators) (w : World) (e : Fault),
    status (page w) = Ready ->
    tripped w = false ->
    first_thrown (BlogCard env) (posts (page w)) = None ->
    1 < totalPages (page w) ->
    Pagination env {| pager_currentPage := currentPage (page w);
                      pager_totalPages := totalPages (page w) |} = Some e ->
    let w' := commit env w in
    screen w' = Bounded (ErrorBoundary.Fallback ErrorBoundary.fallback) /\
    shown_cards (screen w') = [] /\
    tripped w' = true /\
    console w' = console w ++ [LogRenderError e].
Proof.
  intros env w e Hst Ht Hcards Htot Hpager w'. subst w'.
  rewrite (commit_fresh env w Hst Ht), render_children_boundary.
  apply first_thrown_none in Hcards. rewrite Hcards.
  apply Z.ltb_lt in Htot. rewrite Htot, Hpager.
  unfold tripped. cbn. repeat split.
Qed.

(** ** [setupMiddleware] and the file system *)

Section SetupMiddleware.

Import ViteConfig.

Lemma lookup_add (fs : FileSystem) (q p : Path) (n : Node) :
  lookup (add q n fs) p =
  if list_eq_dec string_dec q p then Some n else lookup fs p.
Proof. reflexivity. Qed.

Lemma lookup_add_same (fs : FileSystem) (p : Path) (n : Node) :
  lookup (add p n fs) p = Some n.
Proof. rewrite lookup_add. now destruct (list_eq_dec string_dec p p). Qed.

Lemma existsSync_snoc (fs : FileSystem) (l : Path) (x : string) :
  existsSync fs (l ++ [x]) =
  match lookup fs (l ++ [x]) with Some _ => true | None => false end.
Proof. destruct l; reflexivity. Qed.

Lemma is_directory_snoc (fs : FileSystem) (l : Path) (x : string) :
  is_directory fs (l ++ [x]) =
  match lookup fs (l ++ [x]) with Some Directory => true | _ => false end.
Proof. destruct l; reflexivity. Qed.

Lemma writeFileSync_snoc (fs : FileSystem) (l : Path) (x data : string) :
  writeFileSync (l ++ [x]) data fs =
  match lookup fs (l ++ [x]) with
  | Some Directory => None
  | _ => if is_directory fs l
         then if denied fs (l ++ [x]) then None
              else Some (add (l ++ [x]) (File data) fs)
         else None
  end.
Proof.
  unfold writeFileSync. rewrite removelast_last.
  destruct l; reflexivity.
Qed.

(** A successful [mkdirSync] only adds entries. *)
Lemma mkdir_below_keeps (todo : list string) :
  forall (done : Path) (fs fs' : FileSystem),
    mkdir_below done todo fs = Some fs' ->
    forall q n, lookup fs q = Some n -> lookup fs' q = Some n.
Proof.
  induction todo as [| seg rest IH]; intros done fs fs' H q n Hq; cbn in H.
  - now inversion H; subst.
  - destruct (lookup fs (done ++ [seg])) as [[d |] |] eqn:Hd.
    + discriminate.
    + eapply IH; eauto.
    + destruct (denied fs (done ++ [seg])); [discriminate |].
      eapply IH; [exact H |]. rewrite lookup_add.
      destruct (list_eq_dec string_dec (done ++ [seg]) q) as [E | _];
        [rewrite E in Hd; congruence | exact Hq].
Qed.

(** It adds nothing below the directory asked for. *)
Lemma mkdir_below_deeper (todo : list string) :
  forall (done : Path) (fs fs' : FileSystem),
    mkdir_below done todo fs = Some fs' ->
    forall q, (List.length done + List.length todo < List.length q)%nat ->
              lookup fs' q = lookup fs q.
Proof.
  induction todo as [| seg rest IH]; intros done fs fs' H q Hlen; cbn in H.
  - now inversion H; subst.
  - assert (Hlen' : (List.length (done ++ [seg]) + List.length rest
                     < List.length q)%nat)
      by (rewrite length_app; cbn in *; lia).
    destruct (lookup fs (done ++ [seg])) as [[d |] |] eqn:Hd.
    + discriminate.
    + eapply IH; eauto.
    + destruct (denied fs (done ++ [seg])); [discriminate |].
      rewrite (IH _ _ _ H q Hlen'), lookup_add.
      destruct (list_eq_dec string_dec (done ++ [seg]) q) as [E | _];
        [| reflexivity].
      exfalso. rewrite <- E, length_app in Hlen'. cbn in *. lia.
Qed.




Lemma blogPostsPath_deeper (dirname : Path) :
  (List.length (@nil string) + List.length (publicDir dirname)
   < List.length (blogPostsPath dirname))%nat.
Proof. unfold blogPostsPath. rewrite length_app. cbn. lia. Qed.

(** The two ways [setupMiddleware] returns normally. *)
Lemma setupMiddleware_cases (dirname : Path) (fs fs' : FileSystem) :
  setupMiddleware dirname fs = Some fs' ->
  (existsSync fs (blogPostsPath dirname) = true /\ fs' = fs) \/
  (lookup fs (blogPostsPath dirname) = None /\
   exists fs1,
     fs' = add (blogPostsPath dirname) (File EMPTY_POSTS_JSON) fs1 /\
     lookup fs1 (blogPostsPath dirname) = None /\
     is_directory fs1 (publicDir dirname) = true /\
     (forall q n, lookup fs q = Some n -> lookup fs1 q = Some n)).
Proof.
  unfold setupMiddleware.
  destruct (existsSync fs (blogPostsPath dirname)) eqn:Hex; cbn [negb].
  - intros [= <-]. now left.
  - intros H. right.
    assert (Hnone : lookup fs (blogPostsPath dirname) = None).
    { unfold blogPostsPath in *. rewrite existsSync_snoc in Hex.
      now destruct (lookup fs _). }
    split; [exact Hnone |].
    destruct (existsSync fs (publicDir dirname)) eqn:Hpub; cbn [negb] in H.
    + unfold blogPostsPath in H. rewrite writeFileSync_snoc in H.
      fold (blogPostsPath dirname) in H. rewrite Hnone in H.
      destruct (is_directory fs (publicDir dirname)) eqn:Hdir; [| discriminate].
      destruct (denied fs (blogPostsPath dirname)); [discriminate |].
      inversion H; subst. exists fs. auto.
    + destruct (mkdirSync_recursive (publicDir dirname) fs) as [fs1 |] eqn:Hmk;
        [| discriminate].
      unfold mkdirSync_recursive in Hmk.
      assert (Hnone1 : lookup fs1 (blogPostsPath dirname) = None).
      { rewrite (mkdir_below_deeper _ _ _ _ Hmk _ (blogPostsPath_deeper dirname)).
        exact Hnone. }
      unfold blogPostsPath in H. rewrite writeFileSync_snoc in H.
      fold (blogPostsPath dirname) in H. rewrite Hnone1 in H.
      destruct (is_directory fs1 (publicDir dirname)) eqn:Hdir; [| discriminate].
      destruct (denied fs1 (blogPostsPath dirname)); [discriminate |].
      inversion H; subst. exists fs1. repeat split; auto.
      eapply mkdir_below_keeps; eauto.
Qed.

End SetupMiddleware.

Section SetupMiddlewareProperties.

Import ViteConfig.

(** X13.  Whenever [setupMiddleware] returns normally, [blog-posts.json]
    exists afterwards, and running it again on the result changes
    nothing: the file is created at most once. *)
Theorem setupMiddleware_settles :
  forall (dirname : Path) (fs fs' : FileSystem),
    setupMiddleware dirname fs = Some fs' ->
    existsSync fs' (blogPostsPath dirname) = true /\
    setupMiddleware dirname fs' = Some fs'.
Proof.
  intros dirname fs fs' H.
  assert (Hex : existsSync fs' (blogPostsPath dirname) = true).
  { destruct (setupMiddleware_cases dirname fs fs' H)
      as [[Hex ->] | (_ & fs1 & -> & _)]; [exact Hex |].
    unfold blogPostsPath. rewrite existsSync_snoc.
    fold (blogPostsPath dirname). now rewrite lookup_add_same. }
  split; [exact Hex |]. unfold setupMiddleware. now rewrite Hex.
Qed.

(** X14.  [setupMiddleware] never overwrites and never removes: every
    entry of the file system before the call is there unchanged after it;
    in particular an existing [blog-posts.json], whatever it holds, is
    left alone, and then nothing at all is written. *)
Theorem setupMiddleware_keeps_entries :
  forall (dirname : Path) (fs fs' : FileSystem),
    setupMiddleware dirname fs = Some fs' ->
    (forall (q : Path) (n : Node), lookup fs q = Some n -> lookup fs' q = Some n) /\
    (existsSync fs (blogPostsPath dirname) = true -> fs' = fs).
Proof.
  intros dirname fs fs' H.
  destruct (setupMiddleware_cases dirname fs fs' H)
    as [[Hex ->] | (Hnone & fs1 & -> & _ & _ & Hkeep)].
  - split; auto.
  - split.
    + intros q n Hq. rewrite lookup_add.
      destruct (list_eq_dec string_dec (blogPostsPath dirname) q) as [E | _];
        [rewrite E in Hnone; congruence | now apply Hkeep].
    + intros Hex. exfalso. unfold blogPostsPath in *.
      rewrite existsSync_snoc, Hnone in Hex. discriminate.
Qed.


(** X16.  When [public] exists but is a regular file and
    [blog-posts.json] is missing, [setupMiddleware] throws: the directory
    is not created because [public] exists, and the write below a regular
    file fails. *)
Theorem setupMiddleware_public_is_file :
  forall (dirname : Path) (fs : FileSystem) (d : string),
    lookup fs (publicDir dirname) = Some (File d) ->
    existsSync fs (blogPostsPath dirname) = false ->
    setupMiddleware dirname fs = None.
Proof.
  intros dirname fs d Hpub Hex.
  unfold setupMiddleware. rewrite Hex. cbn [negb].
  assert (E : existsSync fs (publicDir dirname) = true).
  { unfold publicDir in *. rewrite existsSync_snoc. now rewrite Hpub. }
  rewrite E. cbn [negb].
  unfold blogPostsPath in *. rewrite writeFileSync_snoc.
  rewrite existsSync_snoc in Hex.
  destruct (lookup fs ((publicDir dirname) ++ _)) as [n |]; [discriminate |].
  unfold publicDir in *. rewrite is_directory_snoc. now rewrite Hpub.
Qed.

End SetupMiddlewareProperties.

(** ** Further scenarios *)

(** X2 at work: right after a page change the list is empty again. *)
Lemma loading_state_is_clean_witness :
  let evs := [Settled 0 (Resolved [post_a] 3); PageChange 2] in
  let s := page (steps sound_cards evs (mount sound_cards)) in
  status s = Loading /\ posts s = [] /\ error s = None.
Proof.
  intros evs s.
  assert (H : status s = Loading) by reflexivity.
  split; [exact H |].
  exact (proj1 (loading_state_is_clean sound_cards evs) H).
Defined.

(** X3 at work: two requests overlap, and the one issued last is the one
    for the current page. *)
Lemma loader_backed_by_request_witness :
  let evs := [PageChange 2] in
  let w := steps sound_cards evs (mount sound_cards) in
  status (page w) = Loading /\
  inflight w = [{| req_page := 1; req_pageSize := 9 |};
                {| req_page := 2; req_pageSize := 9 |}] /\
  inflight w <> [].
Proof.
  intros evs w.
  assert (H : status (page w) = Loading) by reflexivity.
  split; [exact H |]. split; [reflexivity |].
  exact (proj1 (proj1 (loader_backed_by_request sound_cards evs) H)).
Defined.

(** X5 at work: two posts, two cards. *)
Lemma screen_follows_state_witness :
  let w := steps sound_cards [Settled 0 (Resolved [post_a; post_b] 1)]
             (mount sound_cards) in
  (status (page w) = Ready /\ tripped w = false) /\
  shown_cards (screen w) = [post_a; post_b].
Proof.
  intros w. split; [split; reflexivity |].
  pose proof (screen_follows_state sound_cards
                [Settled 0 (Resolved [post_a; post_b] 1)]) as H.
  cbn zeta in H. fold w in H.
  change (status (page w)) with Ready in H.
  change (tripped w) with false in H. cbn iota in H.
  destruct H as (_ & H & _). exact H.
Defined.

(** X6 at work: two requests overlap; the one for page 1 resolves last,
    onto the listing the other has already put on screen. *)
Lemma resolution_shows_cards_witness :
  let evs := [PageChange 2; Settled 1 (Resolved [post_c] 2)] in
  let w := steps sound_cards evs (mount sound_cards) in
  let req := {| req_page := 1; req_pageSize := 9 |} in
  let w' := step sound_cards (Settled 0 (Resolved [post_a; post_b] 2)) w in
  (nth_error (inflight w) 0 = Some req /\ error (page w) = None /\
   tripped w = false /\
   first_thrown (BlogCard sound_cards) [post_a; post_b] = None /\
   Pagination sound_cards {| pager_currentPage := currentPage (page w);
                             pager_totalPages := 2 |} = None) /\
  shown_cards (screen w') = [post_a; post_b] /\
  console w' = console w ++ [LogFetched 2 1].
Proof.
  intros evs w req w'.
  assert (H1 : nth_error (inflight w) 0 = Some req) by reflexivity.
  assert (H2 : error (page w) = None) by reflexivity.
  assert (H3 : tripped w = false) by reflexivity.
  assert (H4 : first_thrown (BlogCard sound_cards) [post_a; post_b] = None)
    by reflexivity.
  assert (H5 : Pagination sound_cards
                 {| pager_currentPage := currentPage (page w);
                    pager_totalPages := 2 |} = None) by reflexivity.
  split; [repeat split; assumption |].
  destruct (resolution_shows_cards sound_cards evs 0%nat req
              [post_a; post_b] 2 H1 H2 H3 H4 H5) as (Hc & _ & _ & Hl).
  split; [exact Hc | exact Hl].
Defined.


(** X8 at work: page 7 of 3 is asked for while page 2 is still loading. *)
Lemma page_number_not_validated_witness :
  let evs := [Settled 0 (Resolved [post_a] 3); PageChange 2] in
  let w := steps sound_cards evs (mount sound_cards) in
  ((7 < 1 \/ totalPages (page w) < 7) /\ 7 <> currentPage (page w)) /\
  inflight (step sound_cards (PageChange 7) w)
  = [{| req_page := 2; req_pageSize := 9 |};
     {| req_page := 7; req_pageSize := 9 |}].
Proof.
  intros evs w.
  assert (H2 : 7 < 1 \/ totalPages (page w) < 7) by (right; reflexivity).
  assert (H3 : 7 <> currentPage (page w)) by (vm_compute; discriminate).
  split; [split; assumption |].
  exact (proj2 (proj2 (page_number_not_validated sound_cards evs 7 H2 H3))).
Defined.

(** X10 at work. *)
Lemma fallback_iff_caught_witness :
  let evs := [ErrorBoundary.Rerender; ErrorBoundary.Caught ParseFault;
              ErrorBoundary.Rerender] in
  (exists e, In (ErrorBoundary.Caught e) evs) /\
  ErrorBoundary.hasError (ErrorBoundary.steps evs ErrorBoundary.initial) = true.
Proof.
  intros evs.
  assert (H : exists e, In (ErrorBoundary.Caught e) evs)
    by (exists ParseFault; right; left; reflexivity).
  split; [exact H |].
  exact (proj2 (proj1 (fallback_iff_caught evs unit tt)) H).
Defined.

(** X11 at work: two cards are on screen when the second starts to
    throw. *)
Lemma render_faults_each_logged_witness :
  let w := steps sound_cards [Settled 0 (Resolved [post_a; post_b] 1)]
             (mount sound_cards) in
  (status (page w) = Ready /\ tripped w = false) /\
  tripped (commit card_b_throws w) = true.
Proof.
  intros w.
  assert (H1 : status (page w) = Ready) by reflexivity.
  assert (H2 : tripped w = false) by reflexivity.
  split; [split; assumption |].
  apply (proj1 (render_faults_each_logged card_b_throws w H1 H2)).
  vm_compute. discriminate.
Defined.

(** X12 at work: two cards that render, and a pager that does not. *)
Lemma pager_fault_blanks_cards_witness :
  let w := {| page := {| posts := [post_a; post_b]; currentPage := 1;
                         totalPages := 3; isLoading := false; error := None |};
              deps := Some 1; inflight := []; boundary := None;
              screen := Loader; console := [] |} in
  (status (page w) = Ready /\ tripped w = false /\
   first_thrown (BlogCard pager_throws) (posts (page w)) = None /\
   1 < totalPages (page w)) /\
  shown_cards (screen (commit pager_throws w)) = [] /\
  tripped (commit pager_throws w) = true.
Proof.
  intros w.
  assert (H1 : status (page w) = Ready) by reflexivity.
  assert (H2 : tripped w = false) by reflexivity.
  assert (H3 : first_thrown (BlogCard pager_throws) (posts (page w)) = None)
    by reflexivity.
  assert (H4 : 1 < totalPages (page w)) by reflexivity.
  split; [repeat split; assumption |].
  destruct (pager_fault_blanks_cards pager_throws w
              (OtherFault "page out of range") H1 H2 H3 H4 eq_refl)
    as (_ & Hc & Ht & _).
  split; assumption.
Defined.

(** X13 at work: a second start of the dev server finds the file. *)
Lemma setupMiddleware_settles_witness :
  let fs' := ViteConfig.add (ViteConfig.blogPostsPath project_root)
               (ViteConfig.File ViteConfig.EMPTY_POSTS_JSON)
               (ViteConfig.add (ViteConfig.publicDir project_root)
                  ViteConfig.Directory fresh_project) in
  ViteConfig.setupMiddleware project_root fresh_project = Some fs' /\
  ViteConfig.setupMiddleware project_root fs' = Some fs'.
Proof.
  intros fs'.
  assert (H : ViteConfig.setupMiddleware project_root fresh_project = Some fs')
    by reflexivity.
  split; [exact H |].
  exact (proj2 (setupMiddleware_settles project_root fresh_project fs' H)).
Defined.

(** X14 at work: the project directory is still a directory after the
    file has been added next to it. *)
Lemma setupMiddleware_keeps_entries_witness :
  let fs' := ViteConfig.add (ViteConfig.blogPostsPath project_root)
               (ViteConfig.File ViteConfig.EMPTY_POSTS_JSON)
               (ViteConfig.add (ViteConfig.publicDir project_root)
                  ViteConfig.Directory fresh_project) in
  (ViteConfig.setupMiddleware project_root fresh_project = Some fs' /\
   ViteConfig.lookup fresh_project project_root = Some ViteConfig.Directory) /\
  ViteConfig.lookup fs' project_root = Some ViteConfig.Directory.
Proof.
  intros fs'.
  assert (H : ViteConfig.setupMiddleware project_root fresh_project = Some fs')
    by reflexivity.
  assert (Hl : ViteConfig.lookup fresh_project project_root
               = Some ViteConfig.Directory) by reflexivity.
  split; [split; assumption |].
  exact (proj1 (setupMiddleware_keeps_entries project_root fresh_project fs' H)
           project_root ViteConfig.Directory Hl).
Defined.


(** X16 at work: [public] is a regular file. *)
Lemma setupMiddleware_public_is_file_witness :
  (ViteConfig.lookup blocked_project (ViteConfig.publicDir project_root)
   = Some (ViteConfig.File "not a directory") /\
   ViteConfig.existsSync blocked_project (ViteConfig.blogPostsPath project_root)
   = false) /\
  ViteConfig.setupMiddleware project_root blocked_project = None.
Proof.
  assert (H1 : ViteConfig.lookup blocked_project
                 (ViteConfig.publicDir project_root)
               = Some (ViteConfig.File "not a directory")) by reflexivity.
  assert (H2 : ViteConfig.existsSync blocked_project
                 (ViteConfig.blogPostsPath project_root) = false)
    by reflexivity.
  split; [split; assumption |].
  exact (setupMiddleware_public_is_file project_root blocked_project _ H1 H2).
Defined.
